(** * Companion Pro: crisis detection, sentiment scoring and the turn handler

    A shallow embedding of [src/app.js] (the browser client) and of the
    [/api/chat] route of [src/server.js].

    Conventions of the embedding.
    - A JavaScript string is a [string]; every [ascii] is one UTF-16 code
      unit below 256 (the Latin-1 block), so texts with code units above
      255 are outside the model.
    - A JavaScript Number is a binary64 [float]; the decimal literals of
      the source are read to the nearest double, as the engine does.
    - A property that may be absent is an [option]; [None] is [undefined]
      (or [null] where the source only tests truthiness).
    - The module-level mutable state (transcript, timeline, DOM nodes) is one
      [Session] record threaded through a small state monad. *)

From Stdlib Require Import Floats ZArith Ascii String List Bool Lia.
From stdpp Require Import base option list gmap strings.

Set Warnings "-inexact-float".

Local Open Scope string_scope.
Local Open Scope list_scope.

(** ** JavaScript builtins used by the program *)

Module JS.

(** A value passed where the program expects a text. *)
Inductive value : Type :=
  | Undefined
  | Null
  | Str (s : string).

(** [!v], for the values above. *)
Definition falsy (v : value) : bool :=
  match v with
  | Undefined | Null => true
  | Str s => bool_decide (s = "")
  end.

Definition code (c : ascii) : N := N_of_ascii c.

Definition in_range (lo hi n : N) : bool := (lo <=? n)%N && (n <=? hi)%N.

(** [\w] of a regular expression without the [u] flag. *)
Definition is_word (c : ascii) : bool :=
  let n := code c in
  in_range 97 122 n || in_range 65 90 n || in_range 48 57 n || (n =? 95)%N.

(** [\s], and the characters [trim] strips: WhiteSpace and LineTerminator
    below U+0100. *)
Definition is_space (c : ascii) : bool :=
  let n := code c in
  in_range 9 13 n || (n =? 32)%N || (n =? 160)%N.

(** One code unit of [String.prototype.toLowerCase]. *)
Definition lower_char (c : ascii) : ascii :=
  let n := code c in
  if in_range 65 90 n || (in_range 192 222 n && negb (n =? 215)%N)
  then ascii_of_N (n + 32)
  else c.

Fixpoint toLowerCase (s : string) : string :=
  match s with
  | EmptyString => EmptyString
  | String c s' => String (lower_char c) (toLowerCase s')
  end.

(** [Canonicalize] of the regular-expression semantics under the [i] flag
    (no [u] flag): the upper-case mapping of a single code unit, kept only
    when it is one code unit and does not map a non-ASCII unit to ASCII.
    The result can leave Latin-1 (U+00B5 and U+00FF), hence [N]. *)
Definition canonicalize (c : ascii) : N :=
  let n := code c in
  if in_range 97 122 n || (in_range 224 254 n && negb (n =? 247)%N)
  then (n - 32)%N
  else if (n =? 255)%N then 376%N
  else if (n =? 181)%N then 924%N
  else n.

(** A pattern made of literal characters only, matched at the head. *)
Fixpoint match_here_i (pat t : string) : bool :=
  match pat, t with
  | EmptyString, _ => true
  | String _ _, EmptyString => false
  | String p pat', String c t' =>
      (canonicalize p =? canonicalize c)%N && match_here_i pat' t'
  end.

(** [/pat/i.test(t)] for a literal pattern. The expressions of the program
    carry neither [g] nor [y], so [test] keeps no [lastIndex] and is a
    function of [t]. *)
Fixpoint regex_test_i (pat t : string) : bool :=
  match_here_i pat t ||
  match t with
  | EmptyString => false
  | String _ t' => regex_test_i pat t'
  end.

Fixpoint starts_with (pat t : string) : bool :=
  match pat, t with
  | EmptyString, _ => true
  | String _ _, EmptyString => false
  | String p pat', String c t' => bool_decide (p = c) && starts_with pat' t'
  end.

(** [t.includes(pat)]. *)
Fixpoint includes (t pat : string) : bool :=
  starts_with pat t ||
  match t with
  | EmptyString => false
  | String _ t' => includes t' pat
  end.

Fixpoint trim_start (s : string) : string :=
  match s with
  | EmptyString => EmptyString
  | String c s' => if is_space c then trim_start s' else s
  end.

(** Drops the trailing white space; [None] when nothing but white space is
    left. *)
Fixpoint trim_end_aux (s : string) : option string :=
  match s with
  | EmptyString => None
  | String c s' =>
      match trim_end_aux s' with
      | Some r => Some (String c r)
      | None => if is_space c then None else Some (String c EmptyString)
      end
  end.

Definition trim (s : string) : string :=
  default "" (trim_end_aux (trim_start s)).

(** *** Numbers *)

(** [ToNumber] of a number or [undefined]. *)
Definition to_number (v : option float) : float := default nan v.

(** Truthiness of a number. *)
Definition truthy_num (x : float) : bool :=
  negb (is_nan x) && negb (x =? 0)%float.

Definition is_neg_zero (x : float) : bool :=
  match classify x with NZero => true | _ => false end.

Definition Math_min (x y : float) : float :=
  if is_nan x || is_nan y then nan
  else if (x <? y)%float then x
  else if (y <? x)%float then y
  else if is_neg_zero x then x else y.

Definition Math_max (x y : float) : float :=
  if is_nan x || is_nan y then nan
  else if (y <? x)%float then x
  else if (x <? y)%float then y
  else if is_neg_zero x then y else x.

Definition Math_abs (x : float) : float := abs x.

(** [arr[Math.floor(x)]] for a three-element array: [undefined] when the
    floor is not one of 0, 1, 2. *)
Definition at_floor3 {A} (a0 a1 a2 : A) (x : float) : option A :=
  if (x <? 0)%float then None
  else if (x <? 1)%float then Some a0
  else if (x <? 2)%float then Some a1
  else if (x <? 3)%float then Some a2
  else None.

End JS.

(** ** Configuration and lexicon ([src/app.js], lines 14-52) *)

(** The sources of [CONFIG.CRISIS_PATTERNS]; every one is a literal pattern
    with the [i] flag. *)
Definition CRISIS_PATTERNS : list string :=
  [ "suicid"; "kill myself"; "end my life"; "want to die"; "hurting myself";
    "cant go on"; "no reason to live"; "die by myself" ].

Record LexEntry : Type := mkLex { lex_score : float; lex_emotion : string }.

Definition LEXICON_entries : list (string * LexEntry) :=
  [ ("happy", mkLex 0.9 "joy");
    ("joy", mkLex 0.9 "joy");
    ("glad", mkLex 0.6 "joy");
    ("excited", mkLex 0.8 "joy");
    ("good", mkLex 0.4 "calm");
    ("sad", mkLex (-0.8) "sadness");
    ("depressed", mkLex (-0.9) "sadness");
    ("lonely", mkLex (-0.6) "sadness");
    ("anxious", mkLex (-0.7) "anxiety");
    ("worried", mkLex (-0.6) "anxiety");
    ("panic", mkLex (-0.85) "anxiety");
    ("overwhelmed", mkLex (-0.75) "overwhelm");
    ("angry", mkLex (-0.6) "anger");
    ("frustrated", mkLex (-0.5) "anger");
    ("okay", mkLex 0.0 "neutral");
    ("fine", mkLex 0.1 "neutral") ].

(** The own properties of the object literal [LEXICON]. *)
Definition LEXICON : gmap string LexEntry := list_to_map LEXICON_entries.

(** [LEXICON] is an ordinary object: a property read that misses the own
    properties continues in [Object.prototype], whose members are these. *)
Definition Object_prototype_names : list string :=
  [ "constructor"; "__defineGetter__"; "__defineSetter__"; "hasOwnProperty";
    "__lookupGetter__"; "__lookupSetter__"; "isPrototypeOf";
    "propertyIsEnumerable"; "toString"; "valueOf"; "__proto__";
    "toLocaleString" ].

(** The value of [LEXICON[tok]]: an entry, an inherited function or object
    (truthy, with neither [score] nor [emotion]), or [undefined]. *)
Inductive property : Type :=
  | Own (e : LexEntry)
  | Inherited
  | Missing.

Definition LEXICON_get (tok : string) : property :=
  match LEXICON !! tok with
  | Some e => Own e
  | None =>
      if bool_decide (tok ∈ Object_prototype_names) then Inherited else Missing
  end.

(** [LEXICON[tok].score] and [LEXICON[tok].emotion] of a truthy property. *)
Definition prop_score (p : property) : option float :=
  match p with Own e => Some (lex_score e) | _ => None end.

Definition prop_emotion (p : property) : option string :=
  match p with Own e => Some (lex_emotion e) | _ => None end.

(** ** Crisis detection ([detectCrisis], lines 134-138) *)

Definition some_pattern (pats : list string) (t : string) : bool :=
  existsb (fun re => JS.regex_test_i re t) pats.

Definition detectCrisis (text : JS.value) : bool :=
  match text with
  | JS.Str s =>
      if JS.falsy text then false
      else some_pattern CRISIS_PATTERNS (JS.toLowerCase s)
  | _ => false
  end.

(** ** Scoring ([scoreText], lines 145-162) *)

(** [t.match(/\b[^\s]+\b/g) || []].

    [token_from c rest] is the match attempted at a position whose
    character is [c]: the greedy run of non-space characters, backed off to
    the longest non-empty prefix that ends at a word boundary. *)
Fixpoint token_from (c : ascii) (rest : string) : option string :=
  if JS.is_space c then None
  else
    match rest with
    | EmptyString =>
        if JS.is_word c then Some (String c EmptyString) else None
    | String d rest' =>
        match token_from d rest' with
        | Some tok => Some (String c tok)
        | None =>
            if xorb (JS.is_word c) (JS.is_word d)
            then Some (String c EmptyString)
            else None
        end
    end.

(** The global scan: a match is attempted at each position that is a word
    boundary; after a match the scan resumes at its end ([skip] counts the
    characters of the current match still to pass). *)
Fixpoint match_all (prev_word : bool) (skip : nat) (s : string) : list string :=
  match s with
  | EmptyString => []
  | String c s' =>
      match skip with
      | S k => match_all (JS.is_word c) k s'
      | O =>
          if xorb prev_word (JS.is_word c) then
            match token_from c s' with
            | Some tok =>
                tok :: match_all (JS.is_word c) (String.length tok - 1) s'
            | None => match_all (JS.is_word c) 0 s'
            end
          else match_all (JS.is_word c) 0 s'
      end
  end.

Definition tokenize (t : string) : list string := match_all false 0 t.

(** An object with the properties [score], [emotion] and [count], each of
    which may be absent. *)
Record ScoreObj : Type := mkScore {
  score : option float;
  emotion : option string;
  count : option float
}.

(** What [scoreText] returns: the number [0], or an object. *)
Inductive ScoreRet : Type :=
  | RetZero
  | RetObj (o : ScoreObj).

(** Property reads on the returned value; a number has none of the three. *)
Definition fields (r : ScoreRet) : ScoreObj :=
  match r with
  | RetZero => mkScore None None None
  | RetObj o => o
  end.

(** The locals of the [forEach] loop. *)
Record Acc : Type := mkAcc {
  acc_sum : float;
  acc_count : float;
  dominantEmotion : option string;
  highestAbs : float
}.

Definition score_step (a : Acc) (tok : string) : Acc :=
  match LEXICON_get tok with
  | Missing => a
  | p =>
      let val := prop_score p in
      let sum' := (acc_sum a + JS.to_number val)%float in
      let count' := (acc_count a + 1)%float in
      let av := JS.Math_abs (JS.to_number val) in
      if (highestAbs a <? av)%float
      then mkAcc sum' count' (prop_emotion p) av
      else mkAcc sum' count' (dominantEmotion a) (highestAbs a)
  end.

Definition score_loop (toks : list string) : Acc :=
  fold_left score_step toks (mkAcc 0 0 None 0).

(** [dominantEmotion || 'neutral']. *)
Definition or_neutral (e : option string) : string :=
  match e with
  | Some s => if bool_decide (s = "") then "neutral" else s
  | None => "neutral"
  end.

Definition finish (a : Acc) : ScoreObj :=
  let avg :=
    if JS.truthy_num (acc_count a) then (acc_sum a / acc_count a)%float
    else 0%float in
  mkScore (Some (JS.Math_max (-1) (JS.Math_min 1 avg)))
          (Some (or_neutral (dominantEmotion a)))
          (Some (acc_count a)).

Definition scoreText (text : JS.value) : ScoreRet :=
  match text with
  | JS.Str s =>
      if JS.falsy text then RetZero
      else RetObj (finish (score_loop (tokenize (JS.toLowerCase s))))
  | _ => RetZero
  end.

(** ** Session state

    The module-level variables and DOM nodes of [src/app.js]. *)

Inductive Sender : Type := user | bot.

(** The [meta] line of a rendered message: label, score and time. The
    formatting ([toFixed], [toLocaleTimeString]) is left out. *)
Record MetaLine : Type := mkMeta {
  meta_label : string;
  meta_score : float;
  meta_ts : Z
}.

Record UiMessage : Type := mkUi {
  ui_text : string;
  ui_sender : Sender;
  ui_meta : option MetaLine
}.

Record TranscriptEntry : Type := mkEntry {
  entry_sender : Sender;
  entry_text : string;
  entry_ts : Z;
  entry_score : option float;
  entry_emotion : option string;
  entry_lexCount : option float
}.

(** [{ t: timestamp, ...scoreObj }]. *)
Record TimelineEvent : Type := mkEvent {
  ev_t : Z;
  ev_obj : ScoreObj
}.

Record Session : Type := mkSession {
  transcript : list TranscriptEntry;
  emotionTimeline : list TimelineEvent;
  chart_labels : list Z;
  chart_data : list (option float);
  messagesEl : list UiMessage;
  crisisOverlay_hidden : bool;
  typingIndicator_hidden : bool;
  inputEl_value : string;
  useServer_checked : bool;
  clock_reads : nat
}.

Definition with_transcript (x : list TranscriptEntry) (s : Session) : Session :=
  mkSession x (emotionTimeline s) (chart_labels s) (chart_data s)
    (messagesEl s) (crisisOverlay_hidden s) (typingIndicator_hidden s)
    (inputEl_value s) (useServer_checked s) (clock_reads s).

Definition with_timeline (x : list TimelineEvent) (s : Session) : Session :=
  mkSession (transcript s) x (chart_labels s) (chart_data s)
    (messagesEl s) (crisisOverlay_hidden s) (typingIndicator_hidden s)
    (inputEl_value s) (useServer_checked s) (clock_reads s).

Definition with_chart (l : list Z) (d : list (option float)) (s : Session)
  : Session :=
  mkSession (transcript s) (emotionTimeline s) l d
    (messagesEl s) (crisisOverlay_hidden s) (typingIndicator_hidden s)
    (inputEl_value s) (useServer_checked s) (clock_reads s).

Definition with_messages (x : list UiMessage) (s : Session) : Session :=
  mkSession (transcript s) (emotionTimeline s) (chart_labels s) (chart_data s)
    x (crisisOverlay_hidden s) (typingIndicator_hidden s)
    (inputEl_value s) (useServer_checked s) (clock_reads s).

Definition with_overlay_hidden (x : bool) (s : Session) : Session :=
  mkSession (transcript s) (emotionTimeline s) (chart_labels s) (chart_data s)
    (messagesEl s) x (typingIndicator_hidden s)
    (inputEl_value s) (useServer_checked s) (clock_reads s).

Definition with_typing_hidden (x : bool) (s : Session) : Session :=
  mkSession (transcript s) (emotionTimeline s) (chart_labels s) (chart_data s)
    (messagesEl s) (crisisOverlay_hidden s) x
    (inputEl_value s) (useServer_checked s) (clock_reads s).

Definition with_input (x : string) (s : Session) : Session :=
  mkSession (transcript s) (emotionTimeline s) (chart_labels s) (chart_data s)
    (messagesEl s) (crisisOverlay_hidden s) (typingIndicator_hidden s)
    x (useServer_checked s) (clock_reads s).

Definition with_reads (x : nat) (s : Session) : Session :=
  mkSession (transcript s) (emotionTimeline s) (chart_labels s) (chart_data s)
    (messagesEl s) (crisisOverlay_hidden s) (typingIndicator_hidden s)
    (inputEl_value s) (useServer_checked s) x.

(** The state monad of the client. *)
Definition M (A : Type) : Type := Session -> A * Session.

#[global] Instance M_ret : MRet M := fun A x s => (x, s).
#[global] Instance M_bind : MBind M :=
  fun A B f m s => let '(a, s') := m s in f a s'.

Definition gets {A} (f : Session -> A) : M A := fun s => (f s, s).
Definition modify (f : Session -> Session) : M unit := fun s => (tt, f s).
Definition exec {A} (m : M A) (s : Session) : Session := snd (m s).
Definition eval {A} (m : M A) (s : Session) : A := fst (m s).

(** ** The client ([src/app.js]) *)

Section Client.

(** The wall clock: [clock n] is what the [n]-th call of [Date.now()]
    returns. *)
Variable clock : nat -> Z.

Definition Date_now : M Z :=
  fun s => (clock (clock_reads s), with_reads (S (clock_reads s)) s).

(** The [meta] argument of [addMessageToUI]. *)
Record Meta : Type := mkMetaArg {
  arg_ts : Z;
  arg_score : option float;
  arg_emotion : option string
}.

(** [meta.emotion || 'sentiment']. *)
Definition or_sentiment (e : option string) : string :=
  match e with
  | Some l => if bool_decide (l = "") then "sentiment" else l
  | None => "sentiment"
  end.

(** Lines 111-128. *)
Definition addMessageToUI (text : string) (sender : Sender) (meta : Meta)
  : M unit :=
  let line :=
    match arg_score meta with
    | Some sc => Some (mkMeta (or_sentiment (arg_emotion meta)) sc (arg_ts meta))
    | None => None
    end in
  modify (fun s => with_messages (messagesEl s ++ [mkUi text sender line]) s).

(** [if (emotionTimeline.length > 80) emotionTimeline.shift()]. *)
Definition shift_over_80 (tl : list TimelineEvent) : list TimelineEvent :=
  if decide (80 < length tl) then tail tl else tl.

(** Lines 167-176: [push], the [shift], then the chart is redrawn from the
    timeline. *)
Definition pushToTimeline (scoreObj : ScoreObj) : M unit :=
  timestamp ← Date_now;
  modify (fun s => with_timeline (emotionTimeline s ++ [mkEvent timestamp scoreObj]) s);;
  modify (fun s => with_timeline (shift_over_80 (emotionTimeline s)) s);;
  modify (fun s =>
    with_chart (ev_t <$> emotionTimeline s)
               ((fun e => score (ev_obj e)) <$> emotionTimeline s) s).

Definition CRISIS_MESSAGE : string :=
  "I hear you. I'm worried about your safety. Please consider contacting emergency services or a crisis line now.".

(** Lines 209-212. *)
Definition escalateToCrisis : M unit :=
  modify (with_overlay_hidden false);;
  ts ← Date_now;
  addMessageToUI CRISIS_MESSAGE bot (mkMetaArg ts (Some (-1)%float) (Some "crisis")).

Definition HIGH_CONCERN : string :=
  "I'm sorry you're going through such a hard time. Would you like a grounding or breathing exercise now?".
Definition MODERATE_CONCERN : string :=
  "I hear that this is difficult. Tell me more about what's been on your mind.".
Definition POSITIVE : string :=
  "It's great to hear some positivity. What do you think helped you feel this way?".
Definition GENERIC_0 : string := "Tell me more — I'm listening.".
Definition GENERIC_1 : string :=
  "That sounds important. How long have you been feeling that way?".
Definition GENERIC_2 : string :=
  "Thanks for sharing that with me. What would be helpful right now?".

(** The dash of [GENERIC_0] is U+2014; it is written here as its three
    UTF-8 bytes, which like it are neither [\s] nor [\w]. *)
Definition generics : list string := [GENERIC_0; GENERIC_1; GENERIC_2].

(** [generics[Math.floor(random * generics.length)]]. *)
Definition pick_generic (random : float) : option string :=
  JS.at_floor3 GENERIC_0 GENERIC_1 GENERIC_2 (random * 3)%float.

(** Lines 182-204. [random] is what [Math.random()] returns if it is
    called; [None] is [null] (or the [undefined] of an index out of range). *)
Definition localReply (userText : string) (scoreObj : ScoreObj) (random : float)
  : M (option string) :=
  if detectCrisis (JS.Str userText) then
    escalateToCrisis;; mret None
  else
    let s := JS.to_number (score scoreObj) in
    if (s <=? -0.6)%float then mret (Some HIGH_CONCERN)
    else if (s <? -0.2)%float then mret (Some MODERATE_CONCERN)
    else if (0.4 <? s)%float then mret (Some POSITIVE)
    else mret (pick_generic random).

(** Lines 222-225. Every call of the program passes [scoreObj]. *)
Definition pushToTranscript (sender : Sender) (text : string) (scoreObj : ScoreObj)
  : M unit :=
  ts ← Date_now;
  modify (fun s =>
    with_transcript
      (transcript s ++
       [mkEntry sender text ts (score scoreObj) (emotion scoreObj) (count scoreObj)]) s).

(** *** The submit handler (lines 235-307) *)

(** [data.safety]. *)
Record Safety : Type := mkSafety { crisis : bool; moderated : bool }.

(** What the handler reads of a parsed body on which the [try] block runs
    to its end. [reply] is [data.reply] when that is a string, and [None]
    when it is absent or another falsy value ([null], [false], [0]);
    [safety] is [data.safety] when that is an object, its [crisis] the
    truth value of [data.safety.crisis], and [None] otherwise. A body that
    is a number, a string, a boolean or an array has neither property. *)
Record ServerData : Type := mkData {
  reply : option string;
  safety : option Safety
}.

(** The value [resp.json()] resolves with, by what lines 273-274 do with
    it: on [null] the read of [data.reply] throws; on a [reply] that is
    truthy and not a string (a number, [true], an array, an object),
    [scoreText(reply)] throws at [text.toLowerCase()]; any other body is
    read as a [ServerData]. *)
Inductive Body : Type :=
  | BodyNull
  | BodyData (data : ServerData)
  | BodyOddReply.

(** What the [try] block observes of the call: [fetch] rejects, or it
    resolves with [resp.ok] and a body; [None] is a body on which
    [resp.json()] rejects. *)
Inductive FetchOutcome : Type :=
  | FetchRejected
  | FetchResponse (ok : bool) (body : option Body).

(** The branch a turn took; it is returned for the proofs only. *)
Inductive Path : Type :=
  | Ignored
  | LocalCrisis
  | RemoteReply (escalated : bool)
  | RemoteFallback
  | LocalOnly.

Definition APOLOGY : string := "Sorry, I'm having trouble responding right now.".

(** [data.reply || "Sorry, ..."]. *)
Definition reply_or_apology (r : option string) : string :=
  match r with
  | Some t => if bool_decide (t = "") then APOLOGY else t
  | None => APOLOGY
  end.

Definition meta_of (ts : Z) (o : ScoreObj) : Meta :=
  mkMetaArg ts (score o) (emotion o).

(** Render, log and plot one bot reply (lines 274-277, 288-291, 300-303). *)
Definition say (text : string) : M unit :=
  let rscore := fields (scoreText (JS.Str text)) in
  ts ← Date_now;
  addMessageToUI text bot (meta_of ts rscore);;
  pushToTranscript bot text rscore;;
  pushToTimeline rscore.

(** [const reply = localReply(text, scoreObj); if (reply) { ... }]. *)
Definition local_turn (text : string) (scoreObj : ScoreObj) (random : float)
  : M unit :=
  r ← localReply text scoreObj random;
  match r with
  | Some t => if bool_decide (t = "") then mret tt else say t
  | None => mret tt
  end.

(** One run of the handler, the two [await]s included: [outcome] is what
    the server call yields if it is made, [random] what [Math.random()]
    returns if it is called. In the [try] block every throw (a rejected
    call, a status that is not 2xx, a body that is unreadable or [null], a
    [reply] on which [scoreText] throws) comes before the first effect, so
    the [catch] starts from the state the [try] block found. *)
Definition submit (outcome : FetchOutcome) (random : float) : M Path :=
  text ← gets (fun s => JS.trim (inputEl_value s));
  if JS.falsy (JS.Str text) then mret Ignored
  else
    let scoreObj := fields (scoreText (JS.Str text)) in
    ts ← Date_now;
    addMessageToUI text user (meta_of ts scoreObj);;
    pushToTranscript user text scoreObj;;
    pushToTimeline scoreObj;;
    modify (with_input "");;
    modify (with_typing_hidden false);;
    if detectCrisis (JS.Str text) then
      modify (with_typing_hidden true);;
      escalateToCrisis;;
      pushToTranscript bot "Crisis escalation message"
        (mkScore (Some (-1)%float) (Some "crisis") None);;
      mret LocalCrisis
    else
      useServer ← gets useServer_checked;
      if (useServer : bool) then
        match outcome with
        | FetchResponse true (Some (BodyData data)) =>
            say (reply_or_apology (reply data));;
            let flagged :=
              match safety data with Some sf => crisis sf | None => false end in
            (if flagged then escalateToCrisis else mret tt);;
            modify (with_typing_hidden true);;
            mret (RemoteReply flagged)
        | _ =>
            local_turn text scoreObj random;;
            modify (with_typing_hidden true);;
            mret RemoteFallback
        end
      else
        local_turn text scoreObj random;;
        modify (with_typing_hidden true);;
        mret LocalOnly.

Definition GREETING : string :=
  "Hello — I'm here to listen. You can type anything, try a coping tool, or toggle server LLM for richer responses.".

(** The page before the script runs: nothing logged or rendered, the
    overlay and the typing indicator hidden, the checkbox as
    [CONFIG.USE_SERVER_BY_DEFAULT] sets it. *)
Definition blank : Session :=
  mkSession [] [] [] [] [] true true "" true 0.

(** The state after the three initialisation statements (lines 388-390). *)
Definition init : Session :=
  exec (ts ← Date_now;
        addMessageToUI GREETING bot (mkMetaArg ts (Some 0%float) (Some "neutral"));;
        pushToTranscript bot "Greeting" (mkScore (Some 0%float) (Some "neutral") None);;
        pushToTimeline (mkScore (Some 0%float) (Some "neutral") (Some 0%float)))
       blank.

End Client.

(** ** The server ([src/server.js]) *)

Module Server.

(** Lines 39-41. *)
Definition CRISIS_PATTERNS : list string :=
  [ "suicid"; "kill myself"; "end my life"; "want to die"; "hurting myself";
    "cant go on" ].

(** Lines 52-56. *)
Definition detectCrisisServer (text : JS.value) : bool :=
  match text with
  | JS.Str s =>
      if JS.falsy text then false
      else some_pattern CRISIS_PATTERNS (JS.toLowerCase s)
  | _ => false
  end.

Definition SAFE_TEXT : string :=
  "I'm concerned for your safety. If you are in immediate danger, please call your local emergency number now. Would you like crisis line information or someone to contact?".

(** Lines 138-152. *)
Definition generateDeterministicReply (text : string) (random : float)
  : option string :=
  let lowered := JS.toLowerCase text in
  if JS.includes lowered "help" && JS.includes lowered "anx" then
    Some "I hear you're feeling anxious. Would you like a short breathing exercise? We can try one together."
  else if JS.includes lowered "sad" || JS.includes lowered "depress" then
    Some "I'm sorry you're feeling sad. Want to tell me more about what's been happening lately?"
  else
    JS.at_floor3
      "Thanks for sharing that — I'm listening. Can you tell me more?"
      "That sounds important. How long have you felt this way?"
      "I appreciate you telling me this. What would help you right now?"
      (random * 3)%float.

(** The language model, as the route sees it: no client configured, a
    completion with its [content] (if any), or a failed call. *)
Inductive Llm : Type :=
  | NoClient
  | Completion (content : option string)
  | CallFailed.

Inductive HttpResponse : Type :=
  | Json (reply : option string) (sf : Safety)
  | BadRequest
  | ServerError.

(** The handler of [POST /api/chat] (lines 81-132), run on a request that
    the rate limiter of line 49 has let through. [body] is what line 83
    reads of [req.body]: [None] when [req.body] is [undefined], on which
    the destructuring throws (which requests the body parser leaves so
    depends on its version); [Some message] when it is an object, with
    [message] its property of that name, [JS.Undefined] when it has none.
    The append to the log file is not modelled. *)
Definition chat (body : option JS.value) (llm : Llm) (random : float)
  : HttpResponse :=
  match body with
  | None => ServerError
  | Some message =>
      if JS.falsy message then BadRequest
      else
        match message with
        | JS.Str text =>
            if detectCrisisServer message then
              Json (Some SAFE_TEXT) (mkSafety true true)
            else
              let fallback :=
                Json (generateDeterministicReply text random)
                     (mkSafety false false) in
              match llm with
              | Completion (Some content) =>
                  let r := JS.trim content in
                  if bool_decide (r = "") then fallback
                  else Json (Some r) (mkSafety false false)
              | _ => fallback
              end
        | _ => BadRequest
        end
  end.

(** What the client's [fetch] makes of a response: [resp.ok] is the 2xx
    status, and [JSON.stringify] drops a property that is [undefined]. *)
Definition to_client (r : HttpResponse) : FetchOutcome :=
  match r with
  | Json rep sf => FetchResponse true (Some (BodyData (mkData rep (Some sf))))
  | BadRequest | ServerError => FetchResponse false None
  end.

End Server.

(** ** Notions used in the statements *)

(** [p] occurs in [t] as a contiguous substring. *)
Definition occurs_in (p t : string) : Prop :=
  exists pre post, t = pre +:+ p +:+ post.

(** Every code unit. *)
Definition all_units : list ascii := map ascii_of_nat (seq 0 256).

(** The characters the crisis patterns are written with: lower-case ASCII
    letters and the space. *)
Definition plain_char (p : ascii) : bool :=
  JS.in_range 97 122 (JS.code p) || (JS.code p =? 32)%N.

Fixpoint plain (pat : string) : bool :=
  match pat with
  | EmptyString => true
  | String p pat' => plain_char p && plain pat'
  end.

(** The lexicon entries of the tokens that are lexicon tokens, in order. *)
Definition hits (toks : list string) : list LexEntry :=
  omap (fun tok => LEXICON !! tok) toks.

(** The absolute valence of an entry. *)
Definition magnitude (e : LexEntry) : float := abs (lex_score e).

(** What the proofs use of an entry of the lexicon. *)
Definition entry_ok (e : LexEntry) : bool :=
  negb (is_nan (magnitude e)) && (0 <=? magnitude e)%float &&
  negb (bool_decide (lex_emotion e = "")) &&
  ((0 <? magnitude e)%float || bool_decide (lex_emotion e = "neutral")).

(** [e], at index [i] of [hs], is the first entry of largest magnitude. *)
Definition first_largest (hs : list LexEntry) (i : nat) (e : LexEntry) : Prop :=
  hs !! i = Some e /\
  (forall e', e' ∈ hs -> (magnitude e' <=? magnitude e)%float = true) /\
  (forall j e', j < i -> hs !! j = Some e' ->
     (magnitude e' <? magnitude e)%float = true).

(** What the loop of [scoreText] knows after the tokens [toks]. *)
Definition loop_inv (toks : list string) (a : Acc) : Prop :=
  (dominantEmotion a = None /\ highestAbs a = 0%float /\
   forall e, e ∈ hits toks -> (0 <? magnitude e)%float = false) \/
  (exists i e, first_largest (hits toks) i e /\
     highestAbs a = magnitude e /\ dominantEmotion a = Some (lex_emotion e)).

(** Results of [SFcompare], read as an order. *)
Definition flip (c : option comparison) : option comparison :=
  match c with Some c => Some (CompOpp c) | None => None end.

Definition le_code (c : option comparison) : bool :=
  match c with Some (Lt | Eq) => true | _ => false end.

Definition lt_code (c : option comparison) : bool :=
  match c with Some Lt => true | _ => false end.

(** [Math.floor(random * 3)] is an index of [generics]. Every double of
    [0, 1) is such a [random]: rounding is monotone, and the largest of
    them times 3 rounds below 3. *)
Definition index_in_range (random : float) : Prop :=
  (0 <=? random * 3)%float = true /\ (random * 3 <? 3)%float = true.

(** The properties [scoreText] gives a text. *)
Definition scored (t : string) : ScoreObj := fields (scoreText (JS.Str t)).

(** The call did not yield a parsed body with a 2xx status: the [try]
    block throws before it reads [data.reply]. *)
Definition transport_failed (outcome : FetchOutcome) : bool :=
  match outcome with
  | FetchResponse true (Some _) => false
  | _ => true
  end.

(** The [try] block throws: the transport failed, the body is [null], or
    [scoreText] throws on the [reply]. *)
Definition try_throws (outcome : FetchOutcome) : bool :=
  match outcome with
  | FetchResponse true (Some (BodyData _)) => false
  | _ => true
  end.

(** A number as a binary64. *)
Definition nat_float (i : nat) : float :=
  PrimFloat.of_uint63 (Uint63.of_Z (Z.of_nat i)).

(** [Math.floor(x)] is [i]: [i <= x < i + 1]. *)
Definition floor_is (x : float) (i : nat) : Prop :=
  (nat_float i <=? x)%float = true /\ (x <? nat_float (S i))%float = true.

(** The [meta] line [addMessageToUI] renders for a scored message. *)
Definition ui_meta_of (ts : Z) (o : ScoreObj) : option MetaLine :=
  match score o with
  | Some sc => Some (mkMeta (or_sentiment (emotion o)) sc ts)
  | None => None
  end.

(** The rendered crisis message. *)
Definition crisis_ui (ts : Z) : UiMessage :=
  mkUi CRISIS_MESSAGE bot (Some (mkMeta "crisis" (-1) ts)).

Section Statements.

Variable clock : nat -> Z.

(** The entries and events of a turn that starts in [s]: the clock is read
    three times for the user's message and three times for the bot's. *)
Definition user_entry (s : Session) (text : string) : TranscriptEntry :=
  mkEntry user text (clock (1 + clock_reads s))
    (score (scored text)) (emotion (scored text)) (count (scored text)).

Definition user_event (s : Session) (text : string) : TimelineEvent :=
  mkEvent (clock (2 + clock_reads s)) (scored text).

Definition bot_entry (s : Session) (t : string) : TranscriptEntry :=
  mkEntry bot t (clock (4 + clock_reads s))
    (score (scored t)) (emotion (scored t)) (count (scored t)).

Definition bot_event (s : Session) (t : string) : TimelineEvent :=
  mkEvent (clock (5 + clock_reads s)) (scored t).

(** The timeline after the two pushes of a turn with a bot reply. *)
Definition timeline_after (s : Session) (text t : string) : list TimelineEvent :=
  shift_over_80
    (shift_over_80 (emotionTimeline s ++ [user_event s text]) ++ [bot_event s t]).

(** A run of pushes. *)
Definition pushes (os : list ScoreObj) (s : Session) : Session :=
  foldl (fun s o => exec (pushToTimeline clock o) s) s os.

(** The events a run of pushes builds when the clock has been read [n]
    times before. *)
Definition events_from (n : nat) (os : list ScoreObj) : list TimelineEvent :=
  imap (fun i o => mkEvent (clock (n + i)) o) os.

(** A run of turns: the user types [inp] and submits. *)
Definition turns (history : list (string * FetchOutcome * float)) (s : Session)
  : Session :=
  foldl (fun s '(inp, outcome, random) =>
           exec (submit clock outcome random) (with_input inp s)) s history.

End Statements.

(** *** Concrete sessions *)

Definition clock0 (n : nat) : Z := 1000 + Z.of_nat n.

Definition hello : Session := with_input "hello there" (init clock0).

(** A 2xx response whose body has no [reply]. *)
Definition malformed : FetchOutcome :=
  FetchResponse true (Some (BodyData (mkData None None))).

(** A 2xx response that reports a crisis. *)
Definition flagged_reply : FetchOutcome :=
  FetchResponse true
    (Some (BodyData (mkData (Some Server.SAFE_TEXT) (Some (mkSafety true true))))).

Definition is_crisis_entry (e : TranscriptEntry) : bool :=
  bool_decide (entry_emotion e = Some "crisis").

(** ** The rest of the client and the route, and notions used for them *)

(** ** The coping tools and the overlay ([src/app.js], lines 215, 313-340) *)

Section Tools.

Variable clock : nat -> Z.

(** Line 215: the click handler of the overlay's close button. *)
Definition overlayClose_click : M unit := modify (with_overlay_hidden true).

(** The state of one breathing exercise: the [round] of its closure, and
    whether [clearInterval] has stopped its timer. *)
Record Interval : Type := mkInterval { round : nat; cleared : bool }.

Definition BREATHING_INTRO : string :=
  "Let's try 4-4-4 breathing. Breathe in for 4, hold 4, exhale 4. I'll guide you through a few rounds.".
Definition BREATHING_DONE : string := "Nice work — how are you feeling now?".

Definition cues : list string := ["Inhale... 4"; "Hold... 4"; "Exhale... 4"].

Definition calm (sc : float) : ScoreObj := mkScore (Some sc) (Some "calm") None.

(** Lines 316-321 and 331: the statements of [runBreathingExercise] up to
    the [setInterval]. *)
Definition runBreathingExercise : M Interval :=
  ts ← Date_now clock;
  addMessageToUI BREATHING_INTRO bot (mkMetaArg ts (Some 0%float) (Some "calm"));;
  pushToTranscript clock bot "Guided breathing start" (calm 0);;
  mret (mkInterval 0 false).

(** Lines 322-331: one period of the timer. A cleared timer does not fire.
    The index [round % cues.length] is below the length of [cues]. *)
Definition breathing_tick (i : Interval) : M Interval :=
  if cleared i then mret i
  else if decide (length cues * 3 <= round i) then
    ts ← Date_now clock;
    addMessageToUI BREATHING_DONE bot (mkMetaArg ts (Some 0.1%float) (Some "calm"));;
    pushToTranscript clock bot "Breathing complete" (calm 0.1);;
    mret (mkInterval (round i) true)
  else
    ts ← Date_now clock;
    addMessageToUI (default "" (cues !! (round i mod length cues))) bot
      (mkMetaArg ts (Some 0%float) (Some "calm"));;
    mret (mkInterval (S (round i)) (cleared i)).

(** Lines 334-340: the first message of [runGroundingExercise]. *)
Definition runGroundingExercise : M unit :=
  ts ← Date_now clock;
  addMessageToUI "Grounding 5-4-3-2-1: Name 5 things you can see." bot
    (mkMetaArg ts (Some 0%float) (Some "grounding")).

(** The four [setTimeout] callbacks, by delay in milliseconds. *)
Definition grounding_timeouts : list (Z * string) :=
  [ (2000, "4 things you can feel.");
    (4200, "3 things you can hear.");
    (6400, "2 things you can smell (or imagine).");
    (8600, "1 thing you can taste (or imagine). How was that?") ]%Z.

Definition grounding_callback (text : string) : M unit :=
  ts ← Date_now clock;
  addMessageToUI text bot (mkMetaArg ts (Some 0%float) None).

(** What can happen to the page: the handlers and timer callbacks of the
    client, taken one at a time (a turn, its two [await]s included, is one
    step). The interval of a tick is arbitrary. *)
Inductive Action : Type :=
  | Submit (inp : string) (outcome : FetchOutcome) (random : float)
  | CloseOverlay
  | StartBreathing
  | BreathingTick (i : Interval)
  | StartGrounding
  | GroundingCallback (k : nat).

Definition act (a : Action) (s : Session) : Session :=
  match a with
  | Submit inp outcome random => exec (submit clock outcome random) (with_input inp s)
  | CloseOverlay => exec overlayClose_click s
  | StartBreathing => exec runBreathingExercise s
  | BreathingTick i => exec (breathing_tick i) s
  | StartGrounding => exec runGroundingExercise s
  | GroundingCallback k =>
      match grounding_timeouts !! k with
      | Some (_, text) => exec (grounding_callback text) s
      | None => s
      end
  end.

Definition run (l : list Action) (s : Session) : Session := foldl (fun s a => act a s) s l.

(** A breathing exercise: its start, then [n] periods of its timer. *)
Definition breathing (n : nat) (s : Session) : Interval * Session :=
  Nat.iter n (fun p => breathing_tick (fst p) (snd p)) (runBreathingExercise s).

End Tools.

Definition chart_synced (s : Session) : Prop :=
  chart_labels s = ev_t <$> emotionTimeline s /\
  chart_data s = (fun e => score (ev_obj e)) <$> emotionTimeline s.

(** What every state of the page satisfies. *)
Definition session_ok (s : Session) : Prop :=
  length (emotionTimeline s) <= 80 /\ chart_synced s.

(** The turn took a branch that calls [escalateToCrisis]. *)
Definition escalated_path (p : Path) : bool :=
  match p with
  | LocalCrisis | RemoteReply true => true
  | _ => false
  end.

Definition is_bot_entry (e : TranscriptEntry) : bool :=
  match entry_sender e with bot => true | user => false end.

(** The nine cues of a breathing exercise. *)
Definition nine_cues : list string := cues ++ cues ++ cues.

(** *** The tokens of a text, without the regular expression *)

(** The maximal pieces of [s] between white-space characters. *)
Fixpoint chunks (s : string) : list string :=
  match s with
  | EmptyString => [EmptyString]
  | String c s' =>
      if JS.is_space c then EmptyString :: chunks s'
      else
        match chunks s' with
        | r :: rs => String c r :: rs
        | [] => [String c EmptyString]
        end
  end.

(** [s] without its leading non-word characters. *)
Fixpoint lstrip (s : string) : string :=
  match s with
  | EmptyString => EmptyString
  | String c s' => if JS.is_word c then s else lstrip s'
  end.

(** [s] without its trailing non-word characters. *)
Fixpoint rstrip (s : string) : string :=
  match s with
  | EmptyString => EmptyString
  | String c s' =>
      match rstrip s' with
      | EmptyString => if JS.is_word c then String c EmptyString else EmptyString
      | r => String c r
      end
  end.

Definition nonempty (s : string) : option string :=
  match s with EmptyString => None | _ => Some s end.

(** The pieces of [t], each without the non-word characters around it; a
    piece without a word character is dropped. *)
Definition words (t : string) : list string :=
  omap (fun r => nonempty (rstrip (lstrip r))) (chunks t).

Fixpoint no_space (s : string) : bool :=
  match s with
  | EmptyString => true
  | String c s' => negb (JS.is_space c) && no_space s'
  end.

Fixpoint no_word (s : string) : bool :=
  match s with
  | EmptyString => true
  | String c s' => negb (JS.is_word c) && no_word s'
  end.

(** [r] put in front of the first piece. *)
Definition prepend (r : string) (l : list string) : list string :=
  match l with
  | x :: xs => (r +:+ x) :: xs
  | [] => [r]
  end.

(** The length of the leading run of non-space characters. *)
Fixpoint run_len (s : string) : nat :=
  match s with
  | EmptyString => 0
  | String c s' => if JS.is_space c then 0 else S (run_len s')
  end.

(** *** The replies of the server *)

(** The three replies of the server's fallback. *)
Definition ANXIOUS_REPLY : string :=
  "I hear you're feeling anxious. Would you like a short breathing exercise? We can try one together.".
Definition SAD_REPLY : string :=
  "I'm sorry you're feeling sad. Want to tell me more about what's been happening lately?".
Definition SERVER_GENERICS : list string :=
  [ "Thanks for sharing that — I'm listening. Can you tell me more?";
    "That sounds important. How long have you felt this way?";
    "I appreciate you telling me this. What would help you right now?" ].

(** What the route answers to a message that is not a crisis. *)
Definition plain_reply (text : string) (llm : Server.Llm) (random : float)
  : option string :=
  match llm with
  | Server.Completion (Some content) =>
      if bool_decide (JS.trim content = "")
      then Server.generateDeterministicReply text random
      else Some (JS.trim content)
  | _ => Server.generateDeterministicReply text random
  end.

(** The entry has a score and an emotion. *)
Definition entry_complete (e : TranscriptEntry) : Prop :=
  is_Some (entry_score e) /\ is_Some (entry_emotion e).

(** [LEXICON[tok]] is truthy. *)
Definition is_property (tok : string) : bool :=
  match LEXICON_get tok with Missing => false | _ => true end.

(** The emotions [scoreText] can report. *)
Definition EMOTIONS : list string :=
  "neutral" :: map (fun kv => lex_emotion (snd kv)) LEXICON_entries.

(** * Proofs *)

(** ** The order of binary64 numbers

    [<?] and [<=?] on [float] are specified through [SFcompare]; the facts
    below are what the thresholds of the program need. *)

Module FloatOrder.

Ltac cases_Z a b :=
  let P := fresh in
  pose proof (Z.compare_spec a b) as P; destruct P.

Ltac cases_pos a b :=
  let P := fresh in
  pose proof (Pos.compare_spec a b) as P; unfold Pos.compare in P; destruct P.

Lemma SFcompare_flip x y : SFcompare y x = flip (SFcompare x y).
Proof.
  destruct x as [[]|[]| |[] m1 e1], y as [[]|[]| |[] m2 e2]; try reflexivity;
    cbn [SFcompare flip];
    cases_Z e1 e2; cases_Z e2 e1; try lia; try reflexivity;
    cases_pos m1 m2; cases_pos m2 m1; try lia; reflexivity.
Qed.


Lemma SFcompare_trans x y z :
  le_code (SFcompare x y) = true -> le_code (SFcompare y z) = true ->
  le_code (SFcompare x z) = true /\
  (lt_code (SFcompare x y) || lt_code (SFcompare y z) = true -> lt_code (SFcompare x z) = true).
Proof.
  destruct x as [[]|[]| |[] m1 e1], y as [[]|[]| |[] m2 e2], z as [[]|[]| |[] m3 e3];
    cbn [SFcompare le_code lt_code orb]; try (intros; split; (discriminate || reflexivity || (intros; discriminate)));
    cases_Z e1 e2; cases_Z e2 e3; cases_Z e1 e3; try lia;
    try (cbn; intros; split; (discriminate || reflexivity || (intros; discriminate)));
    cases_pos m1 m2; cases_pos m2 m3; cases_pos m1 m3; try lia;
    cbn; intros; split; (discriminate || reflexivity || (intros; discriminate)).
Qed.


Lemma SFcompare_None x y :
  SFcompare x y = None -> x = S754_nan \/ y = S754_nan.
Proof.
  destruct x as [[]|[]| |[] m1 e1], y as [[]|[]| |[] m2 e2];
    cbn [SFcompare]; intros; try discriminate; auto.
Qed.

Lemma is_nan_spec x : is_nan x = true <-> Prim2SF x = S754_nan.
Proof.
  unfold is_nan. rewrite FloatAxioms.eqb_spec. unfold SFeqb.
  destruct (Prim2SF x) as [[]|[]| |[] m e]; cbn [SFcompare negb];
    try (split; [discriminate | discriminate]); try (split; reflexivity);
    rewrite Z.compare_refl; fold (Pos.compare m m); rewrite Pos.compare_refl;
    cbn; split; discriminate.
Qed.

Lemma ltb_leb x y : (x <? y)%float = true -> (x <=? y)%float = true.
Proof.
  rewrite ltb_spec, leb_spec. unfold SFltb, SFleb.
  destruct (SFcompare _ _) as [[]|]; congruence.
Qed.

Lemma ltb_not_leb x y : (x <? y)%float = true -> (y <=? x)%float = false.
Proof.
  rewrite ltb_spec, leb_spec. unfold SFltb, SFleb.
  rewrite (SFcompare_flip (Prim2SF x) (Prim2SF y)).
  destruct (SFcompare _ _) as [[]|]; cbn; congruence.
Qed.

Lemma leb_not_ltb x y : (x <=? y)%float = true -> (y <? x)%float = false.
Proof.
  rewrite ltb_spec, leb_spec. unfold SFltb, SFleb.
  rewrite (SFcompare_flip (Prim2SF x) (Prim2SF y)).
  destruct (SFcompare _ _) as [[]|]; cbn; congruence.
Qed.

Lemma ltb_not_nan_l x y : (x <? y)%float = true -> is_nan x = false.
Proof.
  rewrite ltb_spec. unfold SFltb. intros H.
  destruct (is_nan x) eqn:E; [|reflexivity].
  apply is_nan_spec in E. rewrite E in H. discriminate.
Qed.

Lemma ltb_not_nan_r x y : (x <? y)%float = true -> is_nan y = false.
Proof.
  rewrite ltb_spec. unfold SFltb. intros H.
  destruct (is_nan y) eqn:E; [|reflexivity].
  apply is_nan_spec in E. rewrite E in H.
  destruct (Prim2SF x) as [[]|[]| |[] m e]; discriminate.
Qed.

Lemma leb_not_nan_l x y : (x <=? y)%float = true -> is_nan x = false.
Proof.
  rewrite leb_spec. unfold SFleb. intros H.
  destruct (is_nan x) eqn:E; [|reflexivity].
  apply is_nan_spec in E. rewrite E in H. discriminate.
Qed.

Lemma leb_not_nan_r x y : (x <=? y)%float = true -> is_nan y = false.
Proof.
  rewrite leb_spec. unfold SFleb. intros H.
  destruct (is_nan y) eqn:E; [|reflexivity].
  apply is_nan_spec in E. rewrite E in H.
  destruct (Prim2SF x) as [[]|[]| |[] m e]; discriminate.
Qed.

(** The order is total on numbers. *)
Lemma not_leb_ltb x y :
  is_nan x = false -> is_nan y = false ->
  (x <=? y)%float = false -> (y <? x)%float = true.
Proof.
  intros Hx Hy. rewrite ltb_spec, leb_spec. unfold SFltb, SFleb.
  rewrite (SFcompare_flip (Prim2SF x) (Prim2SF y)).
  destruct (SFcompare _ _) as [[]|] eqn:E; cbn; try congruence.
  apply SFcompare_None in E. destruct E as [E|E]; apply is_nan_spec in E; congruence.
Qed.

Lemma not_ltb_leb x y :
  is_nan x = false -> is_nan y = false ->
  (x <? y)%float = false -> (y <=? x)%float = true.
Proof.
  intros Hx Hy. rewrite ltb_spec, leb_spec. unfold SFltb, SFleb.
  rewrite (SFcompare_flip (Prim2SF x) (Prim2SF y)).
  destruct (SFcompare _ _) as [[]|] eqn:E; cbn; try congruence.
  apply SFcompare_None in E. destruct E as [E|E]; apply is_nan_spec in E; congruence.
Qed.

Lemma leb_trans x y z :
  (x <=? y)%float = true -> (y <=? z)%float = true -> (x <=? z)%float = true.
Proof.
  rewrite !leb_spec. unfold SFleb. intros H1 H2.
  apply (SFcompare_trans (Prim2SF x) (Prim2SF y) (Prim2SF z)); assumption.
Qed.

Lemma leb_ltb_trans x y z :
  (x <=? y)%float = true -> (y <? z)%float = true -> (x <? z)%float = true.
Proof.
  intros H1 H2. pose proof (ltb_leb _ _ H2) as H3.
  revert H1 H2 H3. rewrite !leb_spec, !ltb_spec. unfold SFleb, SFltb. intros H1 H2 H3.
  destruct (SFcompare_trans (Prim2SF x) (Prim2SF y) (Prim2SF z) H1 H3) as [_ H].
  apply H. unfold lt_code. rewrite H2. apply orb_true_r.
Qed.

Lemma ltb_leb_trans x y z :
  (x <? y)%float = true -> (y <=? z)%float = true -> (x <? z)%float = true.
Proof.
  intros H1 H2. pose proof (ltb_leb _ _ H1) as H3.
  revert H1 H2 H3. rewrite !leb_spec, !ltb_spec. unfold SFleb, SFltb. intros H1 H2 H3.
  destruct (SFcompare_trans (Prim2SF x) (Prim2SF y) (Prim2SF z) H3 H2) as [_ H].
  apply H. unfold lt_code. rewrite H1. reflexivity.
Qed.

End FloatOrder.

Import FloatOrder.

(** ** Crisis detection *)

Section Matching.

Lemma in_all_units c : In c all_units.
Proof.
  rewrite <- (ascii_nat_embedding c). apply in_map, in_seq.
  pose proof (nat_ascii_bounded c). lia.
Qed.

Lemma canonicalize_lower p c :
  plain_char p = true ->
  (JS.canonicalize p =? JS.canonicalize (JS.lower_char c))%N
  = bool_decide (p = JS.lower_char c).
Proof.
  assert (H : forallb (fun p => forallb (fun c =>
            implb (plain_char p)
              (eqb (JS.canonicalize p =? JS.canonicalize (JS.lower_char c))%N
                   (bool_decide (p = JS.lower_char c)))) all_units) all_units = true)
    by (vm_compute; reflexivity).
  rewrite forallb_forall in H. specialize (H p (in_all_units p)).
  rewrite forallb_forall in H. specialize (H c (in_all_units c)).
  intros Hp. rewrite Hp in H. cbn in H. apply eqb_prop in H. exact H.
Qed.

Lemma match_here_lower pat s :
  plain pat = true ->
  JS.match_here_i pat (JS.toLowerCase s) = JS.starts_with pat (JS.toLowerCase s).
Proof.
  revert s. induction pat as [|p pat IH]; intros s Hp; [reflexivity|].
  cbn in Hp. apply andb_prop in Hp as [Hp1 Hp2].
  destruct s as [|c s]; [reflexivity|]. cbn.
  rewrite canonicalize_lower, IH by assumption. reflexivity.
Qed.

Lemma regex_test_lower pat s :
  plain pat = true ->
  JS.regex_test_i pat (JS.toLowerCase s) = JS.includes (JS.toLowerCase s) pat.
Proof.
  intros Hp. induction s as [|c s IH].
  - cbn. destruct pat; reflexivity.
  - cbn [JS.toLowerCase JS.regex_test_i JS.includes].
    rewrite <- IH. f_equal. apply (match_here_lower pat (String c s) Hp).
Qed.

Lemma starts_with_spec pat t :
  JS.starts_with pat t = true <-> exists post, t = pat +:+ post.
Proof.
  revert t. induction pat as [|p pat IH]; intros t; cbn.
  - split; [intros _; exists t; reflexivity | reflexivity].
  - destruct t as [|c t].
    + split; [discriminate | intros [post H]; discriminate].
    + rewrite andb_true_iff, bool_decide_eq_true, IH. split.
      * intros [-> [post ->]]. exists post. reflexivity.
      * intros [post H]. injection H as -> ->. split; [reflexivity | eauto].
Qed.

Lemma includes_spec t pat : JS.includes t pat = true <-> occurs_in pat t.
Proof.
  unfold occurs_in. induction t as [|c t IH]; cbn [JS.includes];
    rewrite orb_true_iff, starts_with_spec.
  - split.
    + intros [[post H]|H]; [|discriminate]. exists "", post. exact H.
    + intros [pre [post H]]. left. destruct pre; [exists post; exact H|discriminate].
  - rewrite IH. split.
    + intros [[post H]|[pre [post H]]].
      * exists "", post. exact H.
      * exists (String c pre), post. cbn. rewrite H. reflexivity.
    + intros [pre [post H]]. destruct pre as [|d pre].
      * left. exists post. exact H.
      * right. injection H as -> H. eauto.
Qed.

Lemma toLowerCase_app a b :
  JS.toLowerCase (a +:+ b) = JS.toLowerCase a +:+ JS.toLowerCase b.
Proof. induction a as [|c a IH]; simpl; [reflexivity | rewrite IH; reflexivity]. Qed.

Lemma toLowerCase_split s a b :
  JS.toLowerCase s = a +:+ b ->
  exists a' b', s = a' +:+ b' /\ JS.toLowerCase a' = a /\ JS.toLowerCase b' = b.
Proof.
  revert s. induction a as [|c a IH]; intros s H.
  - exists "", s. auto.
  - destruct s as [|d s]; [discriminate|]. cbn in H. injection H as Hc H.
    destruct (IH s H) as (a' & b' & -> & Ha & Hb).
    exists (String d a'), b'. cbn. rewrite Ha, Hc. auto.
Qed.

Lemma some_pattern_spec pats t :
  some_pattern pats t = true <->
  exists pat, pat ∈ pats /\ JS.regex_test_i pat t = true.
Proof.
  unfold some_pattern. rewrite existsb_exists. split.
  - intros (p & Hin & H). exists p. rewrite list_elem_of_In. auto.
  - intros (p & Hin & H). exists p. rewrite <- list_elem_of_In. auto.
Qed.

Lemma some_pattern_perm pats pats' t :
  pats ≡ₚ pats' -> some_pattern pats t = some_pattern pats' t.
Proof.
  intros HP. apply eq_true_iff_eq. rewrite !some_pattern_spec.
  split; intros (p & Hin & H); exists p; split; auto.
  - rewrite <- HP. exact Hin.
  - rewrite HP. exact Hin.
Qed.

End Matching.

Lemma CRISIS_PATTERNS_plain : Forall (fun p => plain p = true) CRISIS_PATTERNS.
Proof. repeat constructor. Qed.

(** C1: the crisis detector is a function of its input alone. It returns
    [false] on [undefined], [null] and the empty string. On a non-empty
    string it returns [true] exactly when one of the fixed patterns occurs
    in the lower-cased string, that is, when some substring of the input
    lower-cases to a pattern; and the answer is the same for every order
    of the pattern list. *)
Theorem detectCrisis_spec :
  detectCrisis JS.Undefined = false /\
  detectCrisis JS.Null = false /\
  detectCrisis (JS.Str "") = false /\
  forall s, s <> "" ->
    (detectCrisis (JS.Str s) = true <->
       exists pat, pat ∈ CRISIS_PATTERNS /\ occurs_in pat (JS.toLowerCase s)) /\
    (detectCrisis (JS.Str s) = true <->
       exists pat w, pat ∈ CRISIS_PATTERNS /\ occurs_in w s /\ JS.toLowerCase w = pat) /\
    (forall pats, pats ≡ₚ CRISIS_PATTERNS ->
       some_pattern pats (JS.toLowerCase s) = detectCrisis (JS.Str s)).
Proof.
  split; [reflexivity|]. split; [reflexivity|]. split; [reflexivity|].
  intros s Hs.
  assert (E : detectCrisis (JS.Str s) = some_pattern CRISIS_PATTERNS (JS.toLowerCase s)).
  { unfold detectCrisis, JS.falsy. rewrite bool_decide_eq_false_2 by exact Hs. reflexivity. }
  assert (A : detectCrisis (JS.Str s) = true <->
       exists pat, pat ∈ CRISIS_PATTERNS /\ occurs_in pat (JS.toLowerCase s)).
  { rewrite E, some_pattern_spec. split; intros (p & Hin & H); exists p; split; auto.
    - apply includes_spec. rewrite <- regex_test_lower; [exact H|].
      exact (proj1 (Forall_forall _ _) CRISIS_PATTERNS_plain p Hin).
    - rewrite regex_test_lower; [apply includes_spec; exact H|].
      exact (proj1 (Forall_forall _ _) CRISIS_PATTERNS_plain p Hin). }
  split; [exact A|]. split.
  - rewrite A. split.
    + intros (p & Hin & pre & post & H).
      apply toLowerCase_split in H as (pre' & r & -> & _ & H).
      apply toLowerCase_split in H as (w & post' & -> & Hw & _).
      exists p, w. split; [exact Hin|]. split; [exists pre', post'; reflexivity | exact Hw].
    + intros (p & w & Hin & (pre & post & ->) & Hw). exists p. split; [exact Hin|].
      exists (JS.toLowerCase pre), (JS.toLowerCase post).
      rewrite !toLowerCase_app, Hw. reflexivity.
  - intros pats HP. rewrite E. apply some_pattern_perm. exact HP.
Qed.

(** ** Scoring *)

Section Scoring.

Lemma LEXICON_entries_ok : Forall (fun kv => entry_ok (snd kv) = true) LEXICON_entries.
Proof. repeat constructor. Qed.

Lemma LEXICON_ok tok e : LEXICON !! tok = Some e -> entry_ok e = true.
Proof.
  intros H. apply elem_of_list_to_map_2 in H.
  exact (proj1 (Forall_forall _ _) LEXICON_entries_ok (tok, e) H).
Qed.

Lemma hits_ok toks e : e ∈ hits toks -> entry_ok e = true.
Proof.
  unfold hits. rewrite list_elem_of_omap. intros (tok & _ & H). eapply LEXICON_ok, H.
Qed.

Lemma hits_app a b : hits (a ++ b) = hits a ++ hits b.
Proof. apply omap_app. Qed.

Lemma ltb_nan_r x : (x <? nan)%float = false.
Proof.
  destruct (x <? nan)%float eqn:E; [|reflexivity].
  apply ltb_not_nan_r in E. discriminate.
Qed.

Lemma entry_facts e :
  entry_ok e = true ->
  is_nan (magnitude e) = false /\ (0 <=? magnitude e)%float = true /\
  lex_emotion e <> "" /\
  ((0 <? magnitude e)%float = false -> lex_emotion e = "neutral").
Proof.
  unfold entry_ok. rewrite !andb_true_iff, !negb_true_iff, orb_true_iff.
  rewrite bool_decide_eq_false, bool_decide_eq_true.
  intros [[[H1 H2] H3] H4]. repeat split; auto.
  intros H. destruct H4 as [H4|H4]; congruence.
Qed.

Lemma score_step_own a tok e :
  LEXICON !! tok = Some e ->
  score_step a tok =
    if (highestAbs a <? magnitude e)%float
    then mkAcc (acc_sum a + lex_score e) (acc_count a + 1) (Some (lex_emotion e)) (magnitude e)
    else mkAcc (acc_sum a + lex_score e) (acc_count a + 1) (dominantEmotion a) (highestAbs a).
Proof. intros L. unfold score_step, LEXICON_get. rewrite L. reflexivity. Qed.

Lemma score_step_other a tok :
  LEXICON !! tok = None ->
  dominantEmotion (score_step a tok) = dominantEmotion a /\
  highestAbs (score_step a tok) = highestAbs a.
Proof.
  intros L. unfold score_step, LEXICON_get. rewrite L.
  destruct (bool_decide _); [|split; reflexivity].
  cbn [prop_score JS.to_number]. unfold JS.Math_abs.
  change (abs (JS.to_number None)) with nan. rewrite ltb_nan_r. split; reflexivity.
Qed.

Lemma loop_inv_step toks a tok :
  loop_inv toks a -> loop_inv (toks ++ [tok]) (score_step a tok).
Proof.
  intros Inv. unfold loop_inv. rewrite hits_app.
  destruct (LEXICON !! tok) as [e|] eqn:L.
  - (* a lexicon token *)
    assert (Hh : hits [tok] = [e]) by (unfold hits; cbn [omap list_omap]; rewrite L; reflexivity).
    rewrite Hh.
    destruct (entry_facts e (LEXICON_ok _ _ L)) as (Hn & H0 & _ & _).
    rewrite (score_step_own a tok e L).
    destruct (highestAbs a <? magnitude e)%float eqn:C; cbn [dominantEmotion highestAbs].
    + right. exists (length (hits toks)), e. split; [|split; reflexivity]. split; [|split].
      * rewrite lookup_app_r, Nat.sub_diag by lia. reflexivity.
      * intros e' [He'|He']%elem_of_app.
        -- apply ltb_leb. destruct Inv as [(_ & Hz & Hall)|(i & ei & (_ & Hle & _) & Hh' & _)].
           ++ rewrite Hz in C. apply leb_ltb_trans with 0%float; [|exact C].
              destruct (entry_facts e' (hits_ok _ _ He')) as (Hn' & _).
              apply not_ltb_leb; [reflexivity | exact Hn' | apply Hall, He'].
           ++ rewrite Hh' in C. apply leb_ltb_trans with (magnitude ei); [apply Hle, He' | exact C].
        -- apply list_elem_of_singleton in He' as ->.
           apply not_ltb_leb; [exact Hn | exact Hn |].
           destruct (magnitude e <? magnitude e)%float eqn:E; [|reflexivity].
           pose proof (ltb_leb _ _ E) as E1. apply ltb_not_leb in E. congruence.
      * intros j e' Hj He'. rewrite lookup_app_l in He' by exact Hj.
        apply list_elem_of_lookup_2 in He'.
        destruct Inv as [(_ & Hz & Hall)|(i & ei & (_ & Hle & _) & Hh' & _)].
        ++ rewrite Hz in C. apply leb_ltb_trans with 0%float; [|exact C].
           destruct (entry_facts e' (hits_ok _ _ He')) as (Hn' & _).
           apply not_ltb_leb; [reflexivity | exact Hn' | apply Hall, He'].
        ++ rewrite Hh' in C. apply leb_ltb_trans with (magnitude ei); [apply Hle, He' | exact C].
    + destruct Inv as [(Hd & Hz & Hall)|(i & ei & (Hi & Hle & Hlt) & Hh' & Hd)].
      * left. split; [exact Hd|]. split; [exact Hz|].
        intros e' [He'|He']%elem_of_app; [apply Hall, He'|].
        apply list_elem_of_singleton in He' as ->. rewrite <- Hz. exact C.
      * right. exists i, ei. split; [|split; assumption]. split; [|split].
        -- rewrite lookup_app_l; [exact Hi|]. eapply lookup_lt_Some, Hi.
        -- intros e' [He'|He']%elem_of_app; [apply Hle, He'|].
           apply list_elem_of_singleton in He' as ->. rewrite Hh' in C.
           apply not_ltb_leb; [|exact Hn|exact C].
           apply list_elem_of_lookup_2 in Hi.
           destruct (entry_facts ei (hits_ok _ _ Hi)) as (Hn' & _). exact Hn'.
        -- intros j e' Hj He'. apply (Hlt j e' Hj).
           rewrite lookup_app_l in He'; [exact He'|].
           apply lookup_lt_Some in Hi. lia.
  - (* not a lexicon token *)
    assert (Hh : hits [tok] = []) by (unfold hits; cbn [omap list_omap]; rewrite L; reflexivity).
    rewrite Hh, app_nil_r.
    destruct (score_step_other a tok L) as [-> ->]. exact Inv.
Qed.

Lemma loop_inv_fold rest : forall seen a,
  loop_inv seen a -> loop_inv (seen ++ rest) (fold_left score_step rest a).
Proof.
  induction rest as [|tok rest IH]; intros seen a Inv; cbn.
  - rewrite app_nil_r. exact Inv.
  - replace (seen ++ tok :: rest) with ((seen ++ [tok]) ++ rest)
      by (rewrite <- app_assoc; reflexivity).
    apply IH, loop_inv_step, Inv.
Qed.

Lemma score_loop_inv toks : loop_inv toks (score_loop toks).
Proof.
  apply (loop_inv_fold toks [] (mkAcc 0 0 None 0)).
  left. cbn. repeat split. intros e He. inversion He.
Qed.

End Scoring.

(** C6: on every text that [scoreText] scores the dominant emotion is
    "neutral" when no token matches and otherwise the emotion of the first
    matched token of largest absolute valence (a later token replaces the
    current one only when its absolute valence is strictly greater); for
    "I feel sad and lonely" the score is negative and the emotion
    "sadness": "sad" (-0.8) outweighs "lonely" (-0.6). The texts scored are
    the non-empty ones: line 146 returns on an empty argument before any
    scoring, with the number 0, which carries no emotion, and every caller
    passes a non-empty string; a text without tokens (" ") gets the neutral
    record. *)
Theorem dominant_emotion_spec :
  (forall s, s <> "" ->
     exists o, scoreText (JS.Str s) = RetObj o /\
       let hs := hits (tokenize (JS.toLowerCase s)) in
       (hs = [] -> emotion o = Some "neutral") /\
       (hs <> [] -> exists i e, first_largest hs i e /\ emotion o = Some (lex_emotion e))) /\
  scoreText (JS.Str "I feel sad and lonely")
    = RetObj (mkScore (Some (-0.7)%float) (Some "sadness") (Some 2%float)) /\
  (-0.7 <? 0)%float = true /\
  hits (tokenize (JS.toLowerCase "I feel sad and lonely"))
    = [mkLex (-0.8) "sadness"; mkLex (-0.6) "sadness"] /\
  (magnitude (mkLex (-0.6) "sadness") <? magnitude (mkLex (-0.8) "sadness"))%float = true /\
  hits (tokenize (JS.toLowerCase "")) = [] /\
  emotion (fields (scoreText (JS.Str ""))) = None /\
  scoreText (JS.Str " ")
    = RetObj (mkScore (Some 0%float) (Some "neutral") (Some 0%float)).
Proof.
  split; [|repeat split; vm_compute; reflexivity].
  intros s Hs. eexists. split.
  { unfold scoreText, JS.falsy. rewrite bool_decide_eq_false_2 by exact Hs. reflexivity. }
  cbn zeta. cbn [finish emotion].
  pose proof (score_loop_inv (tokenize (JS.toLowerCase s))) as Inv.
  set (hs := hits _) in *. set (a := score_loop _) in *.
  destruct Inv as [(Hd & Hz & Hall)|(i & e & Hf & Hh & Hd)]; rewrite Hd; cbn [or_neutral].
  - split; [reflexivity|]. intros Hne. destruct hs as [|e hs'] eqn:Ehs; [congruence|].
    assert (He : e ∈ hits (tokenize (JS.toLowerCase s)))
      by (fold hs; rewrite Ehs; constructor).
    destruct (entry_facts e (hits_ok _ _ He)) as (Hn & H0 & _ & Hneu).
    exists 0, e. split.
    + split; [reflexivity|]. split; [|intros j e' Hj; lia].
      intros e' He'. apply leb_trans with 0%float; [|exact H0].
      fold hs in Hall. rewrite Ehs in Hall.
      assert (He'' : e' ∈ hits (tokenize (JS.toLowerCase s))) by (fold hs; rewrite Ehs; exact He').
      destruct (entry_facts e' (hits_ok _ _ He'')) as (Hn' & _).
      apply not_ltb_leb; [reflexivity | exact Hn' | apply Hall, He'].
    + rewrite Hneu; [reflexivity|]. apply Hall. fold hs. rewrite Ehs. constructor.
  - assert (He : e ∈ hs) by (eapply list_elem_of_lookup_2, Hf).
    destruct (entry_facts e (hits_ok _ _ He)) as (_ & _ & Hne & _).
    rewrite bool_decide_eq_false_2 by exact Hne.
    split.
    + intros E. rewrite E in He. inversion He.
    + intros _. exists i, e. auto.
Qed.

(** ** Turns *)

Section Turn.

Variable clock : nat -> Z.

Local Opaque scoreText detectCrisis JS.trim shift_over_80.

Ltac run :=
  unfold exec, eval, submit, local_turn, say, localReply, escalateToCrisis,
    pushToTranscript, pushToTimeline, addMessageToUI, Date_now, meta_of,
    modify, gets, mbind, M_bind, mret, M_ret;
  cbn.

Ltac enter H C :=
  run; unfold JS.falsy; rewrite bool_decide_eq_false_2 by exact H; run;
  rewrite C; run.

(** *** The local selector *)

Lemma localReply_calm text o random s :
  detectCrisis (JS.Str text) = false ->
  localReply clock text o random s = (eval (localReply clock text o random) s, s).
Proof.
  intros C. unfold eval, localReply. rewrite C.
  repeat match goal with |- context [if ?b then _ else _] => destruct b end; reflexivity.
Qed.

Lemma localReply_calm_eval text o random st st' :
  detectCrisis (JS.Str text) = false ->
  eval (localReply clock text o random) st = eval (localReply clock text o random) st'.
Proof.
  intros C. unfold eval, localReply. rewrite C.
  repeat match goal with |- context [if ?b then _ else _] => destruct b end; reflexivity.
Qed.

(** [Math.floor] on the indices of a three-element array. *)
Lemma at_floor3_floor {A} (a0 a1 a2 : A) x i :
  i < 3 -> floor_is x i -> JS.at_floor3 a0 a1 a2 x = [a0; a1; a2] !! i.
Proof.
  intros Hi [L U]. unfold JS.at_floor3.
  assert (Z : forall lo hi, (lo <=? x)%float = true -> (hi <? lo)%float = true ->
                            (x <? hi)%float = false).
  { intros lo hi Hlo Hhi. destruct (x <? hi)%float eqn:E; [|reflexivity].
    pose proof (leb_ltb_trans _ _ _ Hlo E) as F.
    pose proof (ltb_not_leb _ _ Hhi) as G. rewrite (ltb_leb _ _ F) in G. discriminate. }
  destruct i as [|[|[|i]]]; [| | |lia].
  - change (nat_float 0) with 0%float in L. change (nat_float 1) with 1%float in U.
    rewrite (leb_not_ltb _ _ L), U. reflexivity.
  - change (nat_float 1) with 1%float in L. change (nat_float 2) with 2%float in U.
    rewrite (Z 1 0 L eq_refl)%float, (leb_not_ltb _ _ L), U. reflexivity.
  - change (nat_float 2) with 2%float in L. change (nat_float 3) with 3%float in U.
    rewrite (Z 2 0 L eq_refl)%float, (Z 2 1 L eq_refl)%float, (leb_not_ltb _ _ L), U.
    reflexivity.
Qed.

Lemma floor_in_range x :
  (0 <=? x)%float = true -> (x <? 3)%float = true ->
  exists i, i < 3 /\ floor_is x i.
Proof.
  intros H0 H3. pose proof (leb_not_nan_r _ _ H0) as N.
  destruct (x <? 1)%float eqn:E1; [exists 0; split; [lia|split; assumption]|].
  destruct (x <? 2)%float eqn:E2.
  { exists 1. split; [lia|]. split; [|exact E2].
    apply (not_ltb_leb x 1 N eq_refl E1). }
  exists 2. split; [lia|]. split; [|exact H3].
  apply (not_ltb_leb x 2 N eq_refl E2).
Qed.

Lemma at_floor3_out {A} (a0 a1 a2 : A) x :
  ~ ((0 <=? x)%float = true /\ (x <? 3)%float = true) ->
  JS.at_floor3 a0 a1 a2 x = None.
Proof.
  intros N. unfold JS.at_floor3.
  destruct (x <? 0)%float eqn:E0; [reflexivity|].
  assert (B : forall hi, (x <? hi)%float = true -> (hi <=? 3)%float = true -> False).
  { intros hi E H. apply N. split.
    - apply (not_ltb_leb x 0 (ltb_not_nan_l _ _ E) eq_refl E0).
    - apply (ltb_leb_trans _ _ _ E H). }
  destruct (x <? 1)%float eqn:E1; [destruct (B 1%float E1 eq_refl)|].
  destruct (x <? 2)%float eqn:E2; [destruct (B 2%float E2 eq_refl)|].
  destruct (x <? 3)%float eqn:E3; [destruct (B 3%float E3 eq_refl)|].
  reflexivity.
Qed.

Lemma pick_generic_in_range random :
  index_in_range random -> exists g, g ∈ generics /\ pick_generic random = Some g.
Proof.
  intros [H0 H3]. unfold pick_generic, JS.at_floor3, generics.
  rewrite (leb_not_ltb _ _ H0), H3.
  destruct (_ <? 1)%float; [exists GENERIC_0; split; [set_solver|reflexivity]|].
  destruct (_ <? 2)%float; [exists GENERIC_1; split; [set_solver|reflexivity]|].
  exists GENERIC_2; split; [set_solver|reflexivity].
Qed.

Lemma generics_nonempty g : g ∈ generics -> g <> "".
Proof.
  unfold generics. rewrite !elem_of_cons, elem_of_nil.
  intros [->|[->|[->|[]]]]; discriminate.
Qed.

(** The four buckets of a text that is not a crisis. *)
Lemma localReply_cases text scoreObj random st :
  detectCrisis (JS.Str text) = false ->
  let r := eval (localReply clock text scoreObj random) st in
  let s := JS.to_number (score scoreObj) in
  exec (localReply clock text scoreObj random) st = st /\
  ((s <=? -0.6)%float = true -> r = Some HIGH_CONCERN) /\
  ((-0.6 <? s)%float = true -> (s <? -0.2)%float = true ->
   r = Some MODERATE_CONCERN) /\
  ((0.4 <? s)%float = true -> r = Some POSITIVE) /\
  ((s <=? -0.6)%float = false -> ((-0.6 <? s) && (s <? -0.2))%float = false ->
   (0.4 <? s)%float = false -> r = pick_generic random).
Proof.
  intros C r s. split.
  { unfold exec. rewrite (localReply_calm _ _ _ _ C). reflexivity. }
  subst r. unfold eval, localReply. rewrite C. fold s.
  split; [intros ->; reflexivity|]. split; [|split].
  - intros H1 H2. rewrite (ltb_not_leb _ _ H1), H2. reflexivity.
  - intros H.
    assert (E1 : (s <=? -0.6)%float = false).
    { destruct (s <=? -0.6)%float eqn:E; [|reflexivity].
      pose proof (ltb_leb_trans _ _ _ H E) as F. vm_compute in F. discriminate. }
    assert (E2 : (s <? -0.2)%float = false).
    { destruct (s <? -0.2)%float eqn:E; [|reflexivity].
      pose proof (ltb_leb_trans _ _ _ H (ltb_leb _ _ E)) as F.
      vm_compute in F. discriminate. }
    rewrite E1, E2, H. reflexivity.
  - intros H1 H2 H3.
    assert (E2 : (s <? -0.2)%float = false).
    { destruct (s <? -0.2)%float eqn:E; [|reflexivity].
      rewrite (not_leb_ltb s (-0.6)%float (ltb_not_nan_l _ _ E) eq_refl H1) in H2.
      discriminate. }
    rewrite H1, E2, H3. reflexivity.
Qed.

(** With an index in range, a text that is not a crisis gets a reply. *)
Lemma localReply_replies text scoreObj random st :
  index_in_range random -> detectCrisis (JS.Str text) = false ->
  exists t, eval (localReply clock text scoreObj random) st = Some t /\ t <> "".
Proof.
  intros Hr C.
  destruct (localReply_cases text scoreObj random st C) as (_ & P1 & P2 & P3 & P4).
  cbn zeta in *. set (s := JS.to_number (score scoreObj)) in *.
  destruct (s <=? -0.6)%float eqn:E1;
    [exists HIGH_CONCERN; split; [apply P1; reflexivity | discriminate]|].
  destruct ((-0.6 <? s) && (s <? -0.2))%float eqn:E2.
  { apply andb_prop in E2 as [X Y].
    exists MODERATE_CONCERN; split; [apply P2; assumption | discriminate]. }
  destruct (0.4 <? s)%float eqn:E3;
    [exists POSITIVE; split; [apply P3; reflexivity | discriminate]|].
  destruct (pick_generic_in_range random Hr) as (g & Hg & Eg).
  exists g. split; [rewrite P4 by reflexivity; exact Eg | apply generics_nonempty, Hg].
Qed.

(** C2: the local selector returns [null] exactly when the crisis detector
    flags the text. Otherwise it leaves the session alone and answers by
    the score: at most -0.6, the high-concern message; between -0.6 and
    -0.2, the moderate one; above 0.4, the positive one; any other score
    (not a number included), [generics[Math.floor(random * 3)]], one of
    the three neutral prompts: the one at the index [i] with
    [i <= random * 3 < i + 1]. Only that bucket reads [random]. For
    "I am so happy and excited today" the score is above 0.4 and the
    positive message is returned. That the pick is uniform is a property
    of [Math.random] and is not stated. *)
Theorem localReply_spec text scoreObj random st :
  index_in_range random ->
  let r := eval (localReply clock text scoreObj random) st in
  let s := JS.to_number (score scoreObj) in
  (r = None <-> detectCrisis (JS.Str text) = true) /\
  (detectCrisis (JS.Str text) = false ->
     exec (localReply clock text scoreObj random) st = st /\
     ((s <=? -0.6)%float = true -> r = Some HIGH_CONCERN) /\
     ((-0.6 <? s)%float = true -> (s <? -0.2)%float = true ->
      r = Some MODERATE_CONCERN) /\
     ((0.4 <? s)%float = true -> r = Some POSITIVE) /\
     ((s <=? -0.6)%float = false -> ((-0.6 <? s) && (s <? -0.2))%float = false ->
      (0.4 <? s)%float = false ->
      r = pick_generic random /\
      (exists g, g ∈ generics /\ r = Some g) /\
      (exists i, i < length generics /\ floor_is (random * 3) i /\
                 r = generics !! i) /\
      (forall i, i < length generics -> floor_is (random * 3) i ->
                 r = generics !! i))) /\
  (let happy := "I am so happy and excited today" in
   detectCrisis (JS.Str happy) = false /\
   score (scored happy) = Some 0.85000000000000009%float /\
   (0.4 <? 0.85000000000000009)%float = true /\
   eval (localReply clock happy (scored happy) random) st = Some POSITIVE).
Proof.
  intros Hr r s. split; [split|split].
  - intros E. destruct (detectCrisis (JS.Str text)) eqn:C; [reflexivity|].
    destruct (localReply_replies text scoreObj random st Hr C) as (t & Ht & _).
    subst r. congruence.
  - intros C. subst r. unfold eval, localReply. rewrite C. reflexivity.
  - intros C.
    destruct (localReply_cases text scoreObj random st C) as (P0 & P1 & P2 & P3 & P4).
    repeat (split; [assumption|]).
    intros H1 H2 H3. split; [apply P4; assumption|].
    assert (F : forall i, i < length generics -> floor_is (random * 3) i ->
                          r = generics !! i).
    { intros i Hi Hf. subst r. rewrite (P4 H1 H2 H3).
      apply (at_floor3_floor GENERIC_0 GENERIC_1 GENERIC_2 _ i Hi Hf). }
    split; [|split; [|exact F]].
    + destruct (pick_generic_in_range random Hr) as (g & Hg & Eg).
      exists g. split; [exact Hg|]. subst r. rewrite (P4 H1 H2 H3). exact Eg.
    + destruct Hr as [H0 H3'].
      destruct (floor_in_range _ H0 H3') as (i & Hi & Hf).
      exists i. split; [exact Hi|]. split; [exact Hf|]. apply F; assumption.
  - cbn zeta. split; [vm_compute; reflexivity|]. split; [vm_compute; reflexivity|].
    split; [vm_compute; reflexivity|].
    unfold eval, localReply.
    replace (detectCrisis (JS.Str "I am so happy and excited today")) with false
      by (vm_compute; reflexivity).
    replace (JS.to_number (score (scored "I am so happy and excited today")))
      with 0.85000000000000009%float by (vm_compute; reflexivity).
    reflexivity.
Qed.

(** *** The timeline *)

Lemma pushToTimeline_timeline s o :
  emotionTimeline (exec (pushToTimeline clock o) s)
  = shift_over_80 (emotionTimeline s ++ [mkEvent (clock (clock_reads s)) o]).
Proof. destruct s. reflexivity. Qed.

Lemma pushToTimeline_reads s o :
  clock_reads (exec (pushToTimeline clock o) s) = S (clock_reads s).
Proof. destruct s. reflexivity. Qed.

Local Transparent shift_over_80.

Lemma shift_over_80_drop (tl : list TimelineEvent) :
  length tl <= 81 -> shift_over_80 tl = drop (length tl - 80) tl.
Proof.
  intros H. unfold shift_over_80. destruct (decide (80 < length tl)) as [L|L].
  - replace (length tl - 80) with 1 by lia. destruct tl; reflexivity.
  - replace (length tl - 80) with 0 by lia. reflexivity.
Qed.

Local Opaque shift_over_80.

Lemma pushes_timeline os : forall s,
  length (emotionTimeline s) <= 80 ->
  let all := emotionTimeline s ++ events_from clock (clock_reads s) os in
  emotionTimeline (pushes clock os s) = drop (length all - 80) all.
Proof.
  induction os as [|o os IH]; intros s Hs; cbn zeta.
  - unfold events_from. cbn. rewrite app_nil_r.
    replace (length (emotionTimeline s) - 80) with 0 by lia. reflexivity.
  - cbn [pushes foldl]. fold (pushes clock os (exec (pushToTimeline clock o) s)).
    assert (Hl : length (emotionTimeline s ++ [mkEvent (clock (clock_reads s)) o]) <= 81)
      by (rewrite length_app; cbn; lia).
    rewrite IH.
    2: { rewrite pushToTimeline_timeline, shift_over_80_drop by exact Hl.
         rewrite length_drop. lia. }
    cbn zeta.
    rewrite pushToTimeline_timeline, pushToTimeline_reads, shift_over_80_drop by exact Hl.
    unfold events_from. rewrite imap_cons. cbn [compose].
    replace (clock_reads s + 0) with (clock_reads s) by lia.
    set (ev := mkEvent (clock (clock_reads s)) o).
    replace (imap (fun i o0 => mkEvent (clock (S (clock_reads s) + i)) o0) os)
      with (imap ((fun i o0 => mkEvent (clock (clock_reads s + i)) o0) ∘ S) os).
    2: { apply imap_ext. intros i x _. cbn. f_equal. f_equal. lia. }
    set (rest := imap _ os).
    replace (emotionTimeline s ++ ev :: rest) with ((emotionTimeline s ++ [ev]) ++ rest)
      by (rewrite <- app_assoc; reflexivity).
    set (l := emotionTimeline s ++ [ev]) in *.
    rewrite !length_app, length_drop.
    rewrite <- (drop_app_le l rest (length l - 80)) by lia.
    rewrite drop_drop. f_equal. lia.
Qed.

(** C7: a push onto a timeline of at most 80 events leaves at most 80.
    Below 80 the event is appended; at 80 exactly the oldest event is
    removed and the others keep their order, the new event last. After any
    run of pushes the timeline is the last 80 of all events, in insertion
    order. *)
Theorem timeline_bounded s o :
  length (emotionTimeline s) <= 80 ->
  let ev := mkEvent (clock (clock_reads s)) o in
  let s' := exec (pushToTimeline clock o) s in
  length (emotionTimeline s') <= 80 /\
  (length (emotionTimeline s) < 80 -> emotionTimeline s' = emotionTimeline s ++ [ev]) /\
  (length (emotionTimeline s) = 80 ->
     exists oldest rest, emotionTimeline s = oldest :: rest /\
       emotionTimeline s' = rest ++ [ev]) /\
  (forall os, length (emotionTimeline (pushes clock os s)) <= 80 /\
     let all := emotionTimeline s ++ events_from clock (clock_reads s) os in
     emotionTimeline (pushes clock os s) = drop (length all - 80) all).
Proof.
  intros Hs ev s'. subst s'. rewrite pushToTimeline_timeline. fold ev.
  assert (Hl : length (emotionTimeline s ++ [ev]) = S (length (emotionTimeline s)))
    by (rewrite length_app; cbn; lia).
  rewrite shift_over_80_drop by lia. rewrite Hl. repeat split.
  - rewrite length_drop, Hl. lia.
  - intros H. replace (S (length (emotionTimeline s)) - 80) with 0 by lia. reflexivity.
  - intros H. destruct (emotionTimeline s) as [|oldest rest] eqn:E; [cbn in H; lia|].
    exists oldest, rest. split; [reflexivity|].
    rewrite H. reflexivity.
  - rewrite (pushes_timeline os s Hs). cbn zeta. rewrite length_drop. lia.
  - apply (pushes_timeline os s Hs).
Qed.

(** *** The handler *)

Lemma reply_or_apology_nonempty r : reply_or_apology r <> "".
Proof.
  unfold reply_or_apology. destruct r as [t|]; [|discriminate].
  destruct (bool_decide (t = "")) eqn:E; [discriminate|].
  apply bool_decide_eq_false in E. exact E.
Qed.

Lemma submit_ignored outcome random s :
  JS.trim (inputEl_value s) = "" ->
  submit clock outcome random s = (Ignored, s).
Proof.
  intros H. unfold submit, gets, mbind, M_bind. rewrite H. reflexivity.
Qed.

(** A turn on a crisis text. *)
Lemma submit_crisis outcome random s :
  let text := JS.trim (inputEl_value s) in
  text <> "" -> detectCrisis (JS.Str text) = true ->
  let s' := exec (submit clock outcome random) s in
  eval (submit clock outcome random) s = LocalCrisis /\
  crisisOverlay_hidden s' = false /\
  messagesEl s' = messagesEl s ++
    [mkUi text user (ui_meta_of (clock (clock_reads s)) (scored text));
     crisis_ui (clock (3 + clock_reads s))] /\
  transcript s' = transcript s ++
    [user_entry clock s text;
     mkEntry bot "Crisis escalation message" (clock (4 + clock_reads s))
       (Some (-1)%float) (Some "crisis") None] /\
  emotionTimeline s' = shift_over_80 (emotionTimeline s ++ [user_event clock s text]).
Proof.
  intros text H C. subst text.
  destruct s as [tr tl lab dat msgs ov ty inp us rd]. cbn in *.
  enter H C. rewrite <- !app_assoc. repeat split.
Qed.

(** A turn answered by the server. *)
Lemma submit_remote data random s :
  let text := JS.trim (inputEl_value s) in
  text <> "" -> detectCrisis (JS.Str text) = false ->
  useServer_checked s = true ->
  let t := reply_or_apology (reply data) in
  let flagged := match safety data with Some sf => crisis sf | None => false end in
  let s' := exec (submit clock (FetchResponse true (Some (BodyData data))) random) s in
  eval (submit clock (FetchResponse true (Some (BodyData data))) random) s = RemoteReply flagged /\
  crisisOverlay_hidden s' = (if flagged then false else crisisOverlay_hidden s) /\
  messagesEl s' = messagesEl s ++
    [mkUi text user (ui_meta_of (clock (clock_reads s)) (scored text));
     mkUi t bot (ui_meta_of (clock (3 + clock_reads s)) (scored t))] ++
    (if flagged then [crisis_ui (clock (6 + clock_reads s))] else []) /\
  transcript s' = transcript s ++ [user_entry clock s text; bot_entry clock s t] /\
  emotionTimeline s' = timeline_after clock s text t.
Proof.
  intros text H C U. subst text.
  destruct s as [tr tl lab dat msgs ov ty inp us rd]. cbn in *. subst us.
  enter H C. unfold timeline_after.
  destruct (match safety data with Some sf => crisis sf | None => false end);
    cbn; rewrite <- !app_assoc; repeat split.
Qed.

Lemma transport_failed_throws outcome :
  transport_failed outcome = true -> try_throws outcome = true.
Proof. destruct outcome as [|[] [[|d|]|]]; auto. Qed.

(** A turn answered by the local selector. *)
Lemma submit_local outcome random s :
  let text := JS.trim (inputEl_value s) in
  text <> "" -> detectCrisis (JS.Str text) = false ->
  useServer_checked s = false \/ try_throws outcome = true ->
  let r := eval (localReply clock text (scored text) random) s in
  let s' := exec (submit clock outcome random) s in
  eval (submit clock outcome random) s
    = (if useServer_checked s then RemoteFallback else LocalOnly) /\
  crisisOverlay_hidden s' = crisisOverlay_hidden s /\
  forall t, r = Some t -> t <> "" ->
    messagesEl s' = messagesEl s ++
      [mkUi text user (ui_meta_of (clock (clock_reads s)) (scored text));
       mkUi t bot (ui_meta_of (clock (3 + clock_reads s)) (scored t))] /\
    transcript s' = transcript s ++ [user_entry clock s text; bot_entry clock s t] /\
    emotionTimeline s' = timeline_after clock s text t.
Proof.
  intros text H C U. subst text. cbn zeta.
  assert (E : forall st, localReply clock (JS.trim (inputEl_value s))
                 (scored (JS.trim (inputEl_value s))) random st
               = (eval (localReply clock (JS.trim (inputEl_value s))
                    (scored (JS.trim (inputEl_value s))) random) s, st)).
  { intros st. rewrite (localReply_calm _ _ _ st C). f_equal.
    apply localReply_calm_eval, C. }
  set (r := eval (localReply clock _ _ random) s) in *. clearbody r.
  destruct s as [tr tl lab dat msgs ov ty inp us rd]. cbn in *.
  unfold scored in E.
  assert (G : forall st (k : unit -> M Path),
     (let '(a, s') := local_turn clock (JS.trim inp)
          (fields (scoreText (JS.Str (JS.trim inp)))) random st in k a s')
     = match r with
       | Some t => if bool_decide (t = "") then k tt st
                   else k tt (exec (say clock t) st)
       | None => k tt st
       end).
  { intros st k. unfold local_turn, mbind, M_bind. rewrite E.
    destruct r as [t|]; [|reflexivity].
    destruct (bool_decide (t = "")); [reflexivity|].
    unfold exec. destruct (say clock t st) as [[] ?]. reflexivity. }
  unfold exec, eval, submit, gets, mbind, M_bind. cbn.
  unfold JS.falsy. rewrite bool_decide_eq_false_2 by exact H.
  unfold addMessageToUI, pushToTranscript, pushToTimeline, Date_now, meta_of,
    modify, mbind, M_bind. cbn. rewrite C. cbn.
  assert (Sel : us = false \/ (us = true /\ try_throws outcome = true)).
  { destruct us; [right|left; reflexivity]. destruct U as [U|U]; [discriminate|auto]. }
  destruct Sel as [->|[-> T]];
    [|destruct outcome as [|[] [[|d|]|]]; try discriminate T];
    rewrite G; destruct r as [t|];
    try (cbn; split; [reflexivity|]; split; [reflexivity|]; intros t' [=]);
    (destruct (bool_decide (t = "")) eqn:B;
     [ cbn; split; [reflexivity|]; split; [reflexivity|];
       intros t' [= <-] Ht; apply bool_decide_eq_true in B; contradiction
     | run; split; [reflexivity|]; split; [reflexivity|];
       intros t' [= <-] _; unfold timeline_after;
       rewrite <- !app_assoc; repeat split ]).
Qed.

(** C10: on a turn that is not a crisis, the bot reply [t] (the server's,
    or the local selector's after a failed call or with the server off) is
    scored by [scoreText]; the transcript gains the user's entry and one
    bot entry carrying that score, and the timeline is pushed twice, for
    the user's score and for the reply's. With an index in range every
    such turn has a reply. *)
Theorem bot_reply_scored_and_logged outcome random s :
  let text := JS.trim (inputEl_value s) in
  text <> "" -> detectCrisis (JS.Str text) = false ->
  let s' := exec (submit clock outcome random) s in
  let logged t :=
    transcript s' = transcript s ++ [user_entry clock s text; bot_entry clock s t] /\
    emotionTimeline s' = timeline_after clock s text t in
  (forall data, useServer_checked s = true ->
     outcome = FetchResponse true (Some (BodyData data)) ->
     logged (reply_or_apology (reply data))) /\
  (useServer_checked s = false \/ transport_failed outcome = true ->
     forall t, eval (localReply clock text (scored text) random) s = Some t ->
       t <> "" -> logged t) /\
  (index_in_range random -> exists t, t <> "" /\ logged t).
Proof.
  intros text H C s' logged.
  assert (A : forall data, useServer_checked s = true ->
     outcome = FetchResponse true (Some (BodyData data)) ->
     logged (reply_or_apology (reply data))).
  { intros data U ->. destruct (submit_remote data random s H C U) as (_ & _ & _ & T & L).
    split; assumption. }
  assert (B : useServer_checked s = false \/ try_throws outcome = true ->
     forall t, eval (localReply clock text (scored text) random) s = Some t ->
       t <> "" -> logged t).
  { intros U t R Ht. destruct (submit_local outcome random s H C U) as (_ & _ & L).
    destruct (L t R Ht) as (_ & T & L'). split; assumption. }
  split; [exact A|]. split.
  { intros [U|T]; apply B; [left; exact U | right; apply transport_failed_throws, T]. }
  intros Hr.
  destruct (useServer_checked s) eqn:U; [destruct (try_throws outcome) eqn:T|].
  2: { destruct outcome as [|[] [[|data|]|]]; try discriminate T.
       exists (reply_or_apology (reply data)). split; [apply reply_or_apology_nonempty|].
       apply A; reflexivity. }
  all: destruct (localReply_replies text (scored text) random s Hr C) as (t & R & Ht);
    exists t; (split; [exact Ht|]); apply B; auto.
Qed.

(** C4, as the code has it: a 2xx response with a body whose [reply] is
    missing, empty or another falsy value does not go to the local
    selector; the bot reply is the fixed apology, which is none of the
    selector's messages, scored and logged as a server reply. The turn
    falls back to the local selector exactly when the [try] block throws:
    on a rejected call, a status that is not 2xx or an unreadable body,
    and also on a body that is [null] and on a [reply] that is truthy and
    not a string. *)
Theorem malformed_reply_gets_apology data outcome random s :
  let text := JS.trim (inputEl_value s) in
  text <> "" -> detectCrisis (JS.Str text) = false ->
  useServer_checked s = true ->
  (reply data = None \/ reply data = Some "" ->
     let s' := exec (submit clock (FetchResponse true (Some (BodyData data))) random) s in
     (exists flagged,
        eval (submit clock (FetchResponse true (Some (BodyData data))) random) s
        = RemoteReply flagged) /\
     transcript s' = transcript s ++ [user_entry clock s text; bot_entry clock s APOLOGY] /\
     emotionTimeline s' = timeline_after clock s text APOLOGY /\
     APOLOGY ∉ [HIGH_CONCERN; MODERATE_CONCERN; POSITIVE] ++ generics) /\
  (eval (submit clock outcome random) s = RemoteFallback <->
   try_throws outcome = true) /\
  (try_throws outcome = true <->
   transport_failed outcome = true \/
   outcome = FetchResponse true (Some BodyNull) \/
   outcome = FetchResponse true (Some BodyOddReply)) /\
  (try_throws outcome = true ->
     let s' := exec (submit clock outcome random) s in
     forall t, eval (localReply clock text (scored text) random) s = Some t ->
       t <> "" ->
       transcript s' = transcript s ++ [user_entry clock s text; bot_entry clock s t] /\
       emotionTimeline s' = timeline_after clock s text t).
Proof.
  intros text H C U. split; [|split; [|split]].
  - intros R. cbn zeta.
    destruct (submit_remote data random s H C U) as (P & _ & _ & T & L).
    assert (E : reply_or_apology (reply data) = APOLOGY)
      by (destruct R as [-> | ->]; reflexivity).
    rewrite E in T, L. split; [eexists; exact P|]. split; [exact T|]. split; [exact L|].
    unfold generics. cbn [app]. rewrite !not_elem_of_cons. repeat split; try discriminate.
    apply not_elem_of_nil.
  - destruct (try_throws outcome) eqn:T.
    + destruct (submit_local outcome random s H C (or_intror T)) as (P & _).
      rewrite U in P. split; [reflexivity | intros _; exact P].
    + destruct outcome as [|[] [[|d|]|]]; try discriminate T.
      destruct (submit_remote d random s H C U) as (P & _).
      rewrite P. split; discriminate.
  - destruct outcome as [|[] [[|d|]|]]; cbn; split; auto;
      intros [X|[X|X]]; try reflexivity; discriminate X.
  - intros T. cbn zeta.
    destruct (submit_local outcome random s H C (or_intror T)) as (_ & _ & L).
    intros t R Ht. destruct (L t R Ht) as (_ & X & Y). split; assumption.
Qed.

(** C5, as the code has it: a server reply with [safety.crisis] makes the
    turn call [escalateToCrisis] as a local crisis does: the overlay is
    shown and the fixed crisis message is the last one rendered. The rest
    of the turn differs: the remote turn first renders, logs and plots the
    server's reply and logs no crisis entry; the local turn logs the
    "Crisis escalation message" entry and plots no reply. *)
Theorem remote_crisis_escalates data random s :
  let text := JS.trim (inputEl_value s) in
  text <> "" -> detectCrisis (JS.Str text) = false ->
  useServer_checked s = true ->
  (exists sf, safety data = Some sf /\ crisis sf = true) ->
  let s' := exec (submit clock (FetchResponse true (Some (BodyData data))) random) s in
  let t := reply_or_apology (reply data) in
  (eval (submit clock (FetchResponse true (Some (BodyData data))) random) s = RemoteReply true /\
   crisisOverlay_hidden s' = false /\
   last (messagesEl s') = Some (crisis_ui (clock (6 + clock_reads s))) /\
   transcript s' = transcript s ++ [user_entry clock s text; bot_entry clock s t] /\
   emotionTimeline s' = timeline_after clock s text t) /\
  (forall outcome2 random2 s2,
     let text2 := JS.trim (inputEl_value s2) in
     text2 <> "" -> detectCrisis (JS.Str text2) = true ->
     let s2' := exec (submit clock outcome2 random2) s2 in
     eval (submit clock outcome2 random2) s2 = LocalCrisis /\
     crisisOverlay_hidden s2' = false /\
     last (messagesEl s2') = Some (crisis_ui (clock (3 + clock_reads s2))) /\
     transcript s2' = transcript s2 ++
       [user_entry clock s2 text2;
        mkEntry bot "Crisis escalation message" (clock (4 + clock_reads s2))
          (Some (-1)%float) (Some "crisis") None] /\
     emotionTimeline s2' = shift_over_80 (emotionTimeline s2 ++ [user_event clock s2 text2])).
Proof.
  intros text H C U (sf & Hsf & Hc). cbn zeta. split.
  - destruct (submit_remote data random s H C U) as (P & O & Ms & T & L).
    rewrite Hsf, Hc in P, O, Ms.
    repeat split; try assumption.
    rewrite Ms, !app_assoc. apply last_snoc.
  - intros outcome2 random2 s2 H2 C2.
    destruct (submit_crisis outcome2 random2 s2 H2 C2) as (P & O & Ms & T & L).
    repeat split; try assumption.
    rewrite Ms.
    change [?a; ?b] with ([a] ++ [b]). rewrite app_assoc. apply last_snoc.
Qed.

(** C8, as the code has it: [escalateToCrisis] is idempotent on the
    overlay only; each call renders one more copy of the crisis message.
    It suppresses nothing: after any run of turns, a turn whose text
    matches a crisis pattern escalates again. *)
Theorem escalation_repeats s :
  let once := exec (escalateToCrisis clock) s in
  let twice := exec (escalateToCrisis clock;; escalateToCrisis clock) s in
  (crisisOverlay_hidden once = false /\ crisisOverlay_hidden twice = false /\
   messagesEl once = messagesEl s ++ [crisis_ui (clock (clock_reads s))] /\
   messagesEl twice = messagesEl s ++
     [crisis_ui (clock (clock_reads s)); crisis_ui (clock (1 + clock_reads s))] /\
   transcript twice = transcript s /\ emotionTimeline twice = emotionTimeline s) /\
  (forall history inp outcome random,
     let before := turns clock history s in
     let text := JS.trim inp in
     text <> "" -> detectCrisis (JS.Str text) = true ->
     let after := exec (submit clock outcome random) (with_input inp before) in
     eval (submit clock outcome random) (with_input inp before) = LocalCrisis /\
     crisisOverlay_hidden after = false /\
     messagesEl after = messagesEl before ++
       [mkUi text user (ui_meta_of (clock (clock_reads before)) (scored text));
        crisis_ui (clock (3 + clock_reads before))]).
Proof.
  cbn zeta. split.
  - destruct s. run. rewrite <- !app_assoc. repeat split.
  - intros history inp outcome random H C.
    pose proof (submit_crisis outcome random (with_input inp (turns clock history s))) as P.
    assert (E : inputEl_value (with_input inp (turns clock history s)) = inp)
      by (destruct (turns clock history s); reflexivity).
    cbn zeta in P. rewrite E in P. specialize (P H C).
    destruct P as (P & O & Ms & _). 
    assert (E1 : messagesEl (with_input inp (turns clock history s)) = messagesEl (turns clock history s))
      by (destruct (turns clock history s); reflexivity).
    assert (E2 : clock_reads (with_input inp (turns clock history s)) = clock_reads (turns clock history s))
      by (destruct (turns clock history s); reflexivity).
    rewrite E1, E2 in Ms. repeat split; assumption.
Qed.

End Turn.

Transparent scoreText detectCrisis JS.trim shift_over_80.

(** ** The range of the score *)

(** The clamp of [scoreText]. *)
Lemma clamp_in_range avg :
  let x := JS.Math_max (-1) (JS.Math_min 1 avg) in
  is_nan x = false -> (-1 <=? x)%float = true /\ (x <=? 1)%float = true.
Proof.
  cbn zeta. unfold JS.Math_min.
  change (is_nan 1) with false. change (JS.is_neg_zero 1) with false. cbn [orb].
  destruct (is_nan avg) eqn:N; [intros X; vm_compute in X; discriminate|].
  assert (M : forall m, is_nan m = false -> (m <=? 1)%float = true ->
     (-1 <=? JS.Math_max (-1) m)%float = true /\ (JS.Math_max (-1) m <=? 1)%float = true).
  { intros m Nm Hm. unfold JS.Math_max.
    change (is_nan (-1)) with false. change (JS.is_neg_zero (-1)) with false.
    rewrite Nm. cbn [orb].
    destruct (m <? -1)%float; [split; reflexivity|].
    destruct (-1 <? m)%float eqn:E; [|split; reflexivity].
    split; [apply ltb_leb, E | exact Hm]. }
  intros _.
  destruct (1 <? avg)%float eqn:E1; [apply M; reflexivity|].
  destruct (avg <? 1)%float eqn:E2; apply M; try exact N.
  - apply ltb_leb, E2.
  - apply not_ltb_leb; [reflexivity | exact N | exact E1].
Qed.

Lemma score_in_range text o x :
  scoreText text = RetObj o -> score o = Some x -> is_nan x = false ->
  (-1 <=? x)%float = true /\ (x <=? 1)%float = true.
Proof.
  unfold scoreText. destruct text as [| |s]; try discriminate.
  destruct (JS.falsy (JS.Str s)); [discriminate|].
  intros [= <-]. unfold finish. cbn [score]. intros [= <-]. apply clamp_in_range.
Qed.

(** C3: the claim is that every text gets a record whose score is a number
    of [-1, 1]. The code misses it twice. A token that names a member of
    [Object.prototype] ("constructor", "__proto__") is found by
    [LEXICON[tok]] and has no [score]: the sum, the average and the score
    are not a number, and the turn plots it. And a falsy text gets the
    bare number 0, which has no [score] property at all. *)
Theorem scoreText_not_in_range :
  scoreText (JS.Str "constructor")
    = RetObj (mkScore (Some nan) (Some "neutral") (Some 1%float)) /\
  (-1 <=? nan)%float = false /\ (nan <=? 1)%float = false /\
  scoreText (JS.Str "") = RetZero /\
  score (fields (scoreText (JS.Str ""))) = None /\
  (let s' := exec (submit clock0 FetchRejected 0.5)
               (with_input "constructor" (init clock0)) in
   last (chart_data s') = Some (Some 0%float) /\
   chart_data s' !! 1 = Some (Some nan)).
Proof. repeat split; vm_compute; reflexivity. Qed.

(** *** Server and client patterns *)

Lemma some_pattern_mono pats pats' t :
  pats ⊆ pats' -> some_pattern pats t = true -> some_pattern pats' t = true.
Proof.
  intros Hsub. rewrite !some_pattern_spec. intros (p & Hin & H). exists p. auto.
Qed.

Lemma server_patterns_subset : Server.CRISIS_PATTERNS ⊆ CRISIS_PATTERNS.
Proof.
  unfold Server.CRISIS_PATTERNS, CRISIS_PATTERNS. intros p.
  rewrite !elem_of_cons. tauto.
Qed.

Lemma server_crisis_implies_client m :
  Server.detectCrisisServer m = true -> detectCrisis m = true.
Proof.
  unfold Server.detectCrisisServer, detectCrisis. destruct m as [| |s]; try discriminate.
  destruct (JS.falsy (JS.Str s)); [discriminate|].
  apply some_pattern_mono, server_patterns_subset.
Qed.

(** C9: a message the server's detector flags is flagged by the client's
    (the server's patterns are among the client's). So in the client's
    submit flow, which tests the text locally before it calls the server,
    no answer of this server to the submitted text, and no failed call
    (rejected, non-2xx as the 400, 500 and rate-limit answers are, or with
    an unreadable body), reaches the branch that escalates on a
    server-reported crisis. *)
Theorem server_crisis_branch_unreachable clock :
  (forall m, Server.detectCrisisServer m = true -> detectCrisis m = true) /\
  (forall s llm random random',
     let text := JS.trim (inputEl_value s) in
     let outcome := Server.to_client (Server.chat (Some (JS.Str text)) llm random') in
     eval (submit clock outcome random) s <> RemoteReply true) /\
  (forall s outcome random,
     transport_failed outcome = true ->
     eval (submit clock outcome random) s <> RemoteReply true).
Proof.
  split; [exact server_crisis_implies_client|].
  assert (G : forall s outcome random,
     (forall data, outcome = FetchResponse true (Some (BodyData data)) ->
        detectCrisis (JS.Str (JS.trim (inputEl_value s))) = false ->
        JS.trim (inputEl_value s) <> "" ->
        match safety data with Some sf => crisis sf | None => false end = false) ->
     eval (submit clock outcome random) s <> RemoteReply true).
  { intros s outcome random Hd.
    destruct (decide (JS.trim (inputEl_value s) = "")) as [E|H].
    { unfold eval. rewrite (submit_ignored _ _ _ _ E). discriminate. }
    destruct (detectCrisis (JS.Str (JS.trim (inputEl_value s)))) eqn:C.
    { destruct (submit_crisis clock outcome random s H C) as (P & _). rewrite P. discriminate. }
    destruct (useServer_checked s) eqn:U.
    2: { destruct (submit_local clock outcome random s H C (or_introl U)) as (P & _).
         rewrite P, U. discriminate. }
    destruct (try_throws outcome) eqn:T.
    { destruct (submit_local clock outcome random s H C (or_intror T)) as (P & _).
      rewrite P, U. discriminate. }
    destruct outcome as [|[] [[|data|]|]]; try discriminate T.
    destruct (submit_remote clock data random s H C U) as (P & _).
    rewrite P, (Hd data eq_refl eq_refl H). discriminate. }
  split.
  - intros s llm random random'. cbn zeta. apply G. intros data E C H.
    unfold Server.chat in E. unfold JS.falsy in E.
    rewrite bool_decide_eq_false_2 in E by exact H.
    destruct (Server.detectCrisisServer (JS.Str (JS.trim (inputEl_value s)))) eqn:S.
    { apply server_crisis_implies_client in S. congruence. }
    destruct llm as [|[content|]|]; cbn in E;
      try destruct (bool_decide _); injection E as <-; reflexivity.
  - intros s outcome random T. apply G. intros data ->. discriminate T.
Qed.

(** *** Concrete turns *)

(** C4, as claimed, fails: on "hello there" a 2xx body without [reply]
    makes the bot say the apology, while a rejected call makes it say what
    the local selector picks. *)
Lemma malformed_reply_is_not_a_fallback :
  entry_text <$> last (transcript (exec (submit clock0 malformed 0.5) hello))
    = Some APOLOGY /\
  entry_text <$> last (transcript (exec (submit clock0 FetchRejected 0.5) hello))
    = Some GENERIC_1 /\
  eval (localReply clock0 "hello there" (scored "hello there") 0.5) hello
    = Some GENERIC_1 /\
  exec (submit clock0 malformed 0.5) hello
    <> exec (submit clock0 FetchRejected 0.5) hello.
Proof.
  split; [vm_compute; reflexivity|]. split; [vm_compute; reflexivity|].
  split; [vm_compute; reflexivity|].
  intros E. apply (f_equal (fun s => entry_text <$> last (transcript s))) in E.
  vm_compute in E. discriminate.
Qed.

(** C5, as claimed, fails: the transcript of a locally flagged turn holds
    a crisis entry, that of a remotely flagged turn holds none, and the two
    turns render and plot different numbers of items. *)
Lemma remote_crisis_turn_differs :
  let remote := exec (submit clock0 flagged_reply 0.5) hello in
  let local := exec (submit clock0 FetchRejected 0.5)
                 (with_input "I want to die" (init clock0)) in
  eval (submit clock0 flagged_reply 0.5) hello = RemoteReply true /\
  eval (submit clock0 FetchRejected 0.5) (with_input "I want to die" (init clock0))
    = LocalCrisis /\
  existsb is_crisis_entry (transcript local) = true /\
  existsb is_crisis_entry (transcript remote) = false /\
  length (transcript local) = length (transcript remote) /\
  length (messagesEl local) = 3 /\ length (messagesEl remote) = 4 /\
  length (emotionTimeline local) = 2 /\ length (emotionTimeline remote) = 3.
Proof. repeat split; vm_compute; reflexivity. Qed.

(** C8, as claimed, fails: escalating twice leaves one more message than
    escalating once. *)
Lemma escalate_twice_differs :
  let s := init clock0 in
  length (messagesEl (exec (escalateToCrisis clock0) s)) = 2 /\
  length (messagesEl (exec (escalateToCrisis clock0;; escalateToCrisis clock0) s)) = 3 /\
  exec (escalateToCrisis clock0;; escalateToCrisis clock0) s
    <> exec (escalateToCrisis clock0) s.
Proof.
  split; [vm_compute; reflexivity|]. split; [vm_compute; reflexivity|].
  intros E. apply (f_equal (fun s => length (messagesEl s))) in E.
  vm_compute in E. discriminate.
Qed.

(** ** The claims at concrete inputs *)

(** The two ends of [0, 1): 0 and the largest double below 1. *)
Lemma index_in_range_ends :
  index_in_range 0 /\ index_in_range (next_down 1) /\
  (next_down 1 <? 1)%float = true /\ (next_down 1 * 3 =? next_down 3)%float = true.
Proof. repeat split; vm_compute; reflexivity. Qed.

Lemma hello_submitted :
  JS.trim (inputEl_value hello) <> "" /\
  detectCrisis (JS.Str (JS.trim (inputEl_value hello))) = false /\
  useServer_checked hello = true.
Proof. split; [vm_compute; discriminate|]. split; vm_compute; reflexivity. Qed.

Lemma localReply_spec_witness :
  index_in_range 0.5 /\
  (eval (localReply clock0 "hello there" (scored "hello there") 0.5) hello = None
   <-> detectCrisis (JS.Str "hello there") = true).
Proof.
  assert (H : index_in_range 0.5) by (split; vm_compute; reflexivity).
  split; [exact H|].
  exact (proj1 (localReply_spec clock0 "hello there" (scored "hello there") 0.5 hello H)).
Defined.

Lemma timeline_bounded_witness :
  length (emotionTimeline hello) <= 80 /\
  length (emotionTimeline
            (exec (pushToTimeline clock0 (scored "hello there")) hello)) <= 80.
Proof.
  assert (H : length (emotionTimeline hello) <= 80) by (vm_compute; lia).
  split; [exact H|].
  exact (proj1 (timeline_bounded clock0 hello (scored "hello there") H)).
Defined.

Lemma malformed_reply_gets_apology_witness :
  JS.trim (inputEl_value hello) <> "" /\
  transcript (exec (submit clock0 malformed 0.5) hello)
  = transcript hello ++
    [user_entry clock0 hello "hello there"; bot_entry clock0 hello APOLOGY].
Proof.
  destruct hello_submitted as (H & C & U). split; [exact H|].
  destruct (malformed_reply_gets_apology clock0 (mkData None None) FetchRejected
              0.5 hello H C U) as [P _].
  destruct (P (or_introl eq_refl)) as (_ & T & _). exact T.
Defined.

Lemma remote_crisis_escalates_witness :
  JS.trim (inputEl_value hello) <> "" /\
  crisisOverlay_hidden (exec (submit clock0 flagged_reply 0.5) hello) = false /\
  last (messagesEl (exec (submit clock0 flagged_reply 0.5) hello))
  = Some (crisis_ui (clock0 (6 + clock_reads hello))).
Proof.
  destruct hello_submitted as (H & C & U). split; [exact H|].
  destruct (remote_crisis_escalates clock0
              (mkData (Some Server.SAFE_TEXT) (Some (mkSafety true true)))
              0.5 hello H C U
              (ex_intro _ (mkSafety true true) (conj eq_refl eq_refl)))
    as [(_ & O & L & _) _].
  split; [exact O | exact L].
Defined.

Lemma bot_reply_scored_and_logged_witness :
  JS.trim (inputEl_value hello) <> "" /\
  transcript (exec (submit clock0 FetchRejected 0.5) hello)
  = transcript hello ++
    [user_entry clock0 hello "hello there"; bot_entry clock0 hello GENERIC_1].
Proof.
  destruct hello_submitted as (H & C & U). split; [exact H|].
  destruct (bot_reply_scored_and_logged clock0 FetchRejected 0.5 hello H C)
    as (_ & B & _).
  exact (proj1 (B (or_intror eq_refl) GENERIC_1 eq_refl ltac:(discriminate))).
Defined.

(** * Further properties of the code *)

(** ** The tokenizer of [scoreText] *)

Section Tokens.

Lemma space_not_word c : JS.is_space c = true -> JS.is_word c = false.
Proof.
  assert (H : forallb (fun c => implb (JS.is_space c) (negb (JS.is_word c))) all_units = true)
    by (vm_compute; reflexivity).
  rewrite forallb_forall in H. specialize (H c (in_all_units c)).
  intros E. rewrite E in H. cbn in H. apply negb_true_iff in H. exact H.
Qed.

Lemma token_from_space sp b : JS.is_space sp = true -> token_from sp b = None.
Proof. intros H. destruct b; cbn; rewrite H; reflexivity. Qed.

(** A match does not look past the white space that ends its run. *)
Lemma token_from_cut c a sp b :
  JS.is_space sp = true ->
  token_from c (a +:+ String sp b) = token_from c a.
Proof.
  intros Hsp. revert c. induction a as [|d a IH]; intros c.
  - change ("" +:+ String sp b) with (String sp b). cbn [token_from].
    rewrite (token_from_space sp b Hsp), (space_not_word sp Hsp), xorb_false_r.
    reflexivity.
  - change (String d a +:+ String sp b) with (String d (a +:+ String sp b)).
    cbn [token_from]. rewrite IH. reflexivity.
Qed.

Lemma token_from_length c rest tok :
  token_from c rest = Some tok ->
  String.length tok - 1 <= run_len rest /\ JS.is_space c = false.
Proof.
  revert c tok. induction rest as [|d rest IH]; intros c tok; cbn [token_from run_len].
  - destruct (JS.is_space c); [discriminate|]. destruct (JS.is_word c); [|discriminate].
    intros [= <-]. cbn. auto.
  - destruct (JS.is_space c); [discriminate|].
    destruct (token_from d rest) as [t|] eqn:E.
    + intros [= <-]. destruct (IH d t E) as [L S]. rewrite S. cbn.
      split; [|reflexivity]. destruct t; cbn in *; lia.
    + destruct (xorb _ _); [|discriminate]. intros [= <-]. cbn. split; [lia|reflexivity].
Qed.

Lemma match_all_cut a : forall pw k sp b,
  JS.is_space sp = true -> k <= run_len a ->
  match_all pw k (a +:+ String sp b) = match_all pw k a ++ match_all false 0 b.
Proof.
  induction a as [|c a IH]; intros pw k sp b Hsp Hk.
  - cbn in Hk. assert (k = 0) as -> by lia.
    change ("" +:+ String sp b) with (String sp b). cbn [match_all app].
    rewrite (space_not_word sp Hsp), xorb_false_r, (token_from_space sp b Hsp).
    destruct pw; reflexivity.
  - change (String c a +:+ String sp b) with (String c (a +:+ String sp b)).
    cbn [match_all]. destruct k as [|k].
    + rewrite (token_from_cut c a sp b Hsp).
      destruct (xorb pw (JS.is_word c)); [|apply IH; [exact Hsp|lia]].
      destruct (token_from c a) as [tok|] eqn:E; [|apply IH; [exact Hsp|lia]].
      cbn [app]. f_equal. apply IH; [exact Hsp|].
      apply (token_from_length c a tok E).
    + cbn [run_len] in Hk. destruct (JS.is_space c); [lia|].
      apply IH; [exact Hsp|lia].
Qed.

(** On a run, a match is the run without its trailing non-word characters. *)
Lemma token_from_rstrip c rest :
  no_space (String c rest) = true ->
  token_from c rest = nonempty (rstrip (String c rest)).
Proof.
  revert c. induction rest as [|d rest IH]; intros c H; cbn in H;
    apply andb_prop in H as [Hc H]; apply negb_true_iff in Hc.
  - cbn. rewrite Hc. destruct (JS.is_word c); reflexivity.
  - cbn [token_from]. rewrite Hc. rewrite (IH d H).
    cbn [rstrip]. destruct (rstrip rest) as [|x r] eqn:R.
    + destruct (JS.is_word d) eqn:Wd; cbn [nonempty].
      * reflexivity.
      * rewrite xorb_false_r. destruct (JS.is_word c); reflexivity.
    + reflexivity.
Qed.

Lemma match_all_no_word y : forall pw,
  no_space y = true -> no_word y = true -> match_all pw 0 y = [].
Proof.
  induction y as [|c y IH]; intros pw S W; [reflexivity|].
  cbn in S, W. apply andb_prop in S as [Sc S]. apply andb_prop in W as [Wc W].
  apply negb_true_iff in Wc. cbn [match_all]. rewrite Wc, xorb_false_r.
  assert (T : token_from c y = None).
  { rewrite token_from_rstrip by (cbn; rewrite Sc, S; reflexivity).
    assert (R : forall z, no_word z = true -> rstrip z = "").
    { induction z as [|e z IHz]; [reflexivity|]. cbn. intros Hz.
      apply andb_prop in Hz as [He Hz]. apply negb_true_iff in He.
      rewrite (IHz Hz), He. reflexivity. }
    rewrite (R (String c y)); [reflexivity|]. cbn. rewrite Wc, W. reflexivity. }
  rewrite T. destruct pw; apply IH; assumption.
Qed.

(** A string is what [rstrip] keeps of it, then non-word characters. *)
Lemma rstrip_split s :
  exists y, s = rstrip s +:+ y /\ no_word y = true.
Proof.
  induction s as [|c s (y & E & W)].
  - exists "". split; reflexivity.
  - cbn [rstrip]. destruct (rstrip s) as [|x r] eqn:R.
    + change ("" +:+ y) with y in E. destruct (JS.is_word c) eqn:Wc.
      * exists s. split; [reflexivity | rewrite E; exact W].
      * exists (String c s). split; [reflexivity|].
        cbn. rewrite Wc, E, W. reflexivity.
    + exists y. split; [|exact W].
      change (String c (String x r) +:+ y) with (String c (String x r +:+ y)).
      rewrite <- E. reflexivity.
Qed.

Lemma no_space_app a b : no_space (a +:+ b) = no_space a && no_space b.
Proof.
  induction a as [|c a IH]; [reflexivity|]. simpl. rewrite IH. apply andb_assoc.
Qed.

Lemma append_nil_r (s : string) : s +:+ "" = s.
Proof.
  induction s as [|c s IH]; [reflexivity|].
  change (String c s +:+ "") with (String c (s +:+ "")). rewrite IH. reflexivity.
Qed.

Lemma append_assoc (a b c : string) : (a +:+ b) +:+ c = a +:+ (b +:+ c).
Proof.
  induction a as [|x a IH]; [reflexivity|].
  change (String x a +:+ b) with (String x (a +:+ b)).
  change (String x (a +:+ b) +:+ c) with (String x ((a +:+ b) +:+ c)).
  rewrite IH. reflexivity.
Qed.

Lemma no_word_app a b : no_word (a +:+ b) = no_word a && no_word b.
Proof.
  induction a as [|c a IH]; [reflexivity|].
  change (String c a +:+ b) with (String c (a +:+ b)). cbn [no_word].
  rewrite IH. apply andb_assoc.
Qed.

Lemma match_all_tail t : forall pw y,
  no_space y = true -> no_word y = true ->
  match_all pw (String.length t) (t +:+ y) = [].
Proof.
  induction t as [|c t IH]; intros pw y S W.
  - apply match_all_no_word; assumption.
  - change (String c t +:+ y) with (String c (t +:+ y)). cbn [match_all String.length].
    apply IH; assumption.
Qed.

(** One run gives at most one token. *)
Lemma match_all_run r :
  no_space r = true ->
  match_all false 0 r = option_list (nonempty (rstrip (lstrip r))).
Proof.
  induction r as [|c r IH]; intros S; [reflexivity|].
  pose proof S as S'. cbn in S. apply andb_prop in S as [Sc Sr].
  cbn [match_all lstrip]. destruct (JS.is_word c) eqn:Wc; cbn [xorb].
  - rewrite (token_from_rstrip c r S').
    destruct (rstrip_split (String c r)) as (y & E & W).
    destruct (rstrip (String c r)) as [|d t] eqn:R.
    + cbn [rstrip] in R. rewrite Wc in R. destruct (rstrip r); discriminate.
    + cbn [nonempty option_list]. change (String d t +:+ y) with (String d (t +:+ y)) in E.
      injection E as <- ->.
      replace (String.length (String c t) - 1) with (String.length t) by (cbn; lia).
      rewrite match_all_tail; [reflexivity| |exact W].
      rewrite no_space_app in Sr. apply andb_prop in Sr as [_ Sy]. exact Sy.
  - apply IH, Sr.
Qed.

Lemma chunks_cons s : exists x xs, chunks s = x :: xs.
Proof.
  induction s as [|c s (x & xs & E)]; [eexists _, _; reflexivity|].
  cbn. destruct (JS.is_space c); [eexists _, _; reflexivity|].
  rewrite E. eexists _, _. reflexivity.
Qed.

Lemma match_all_words s : forall r,
  no_space r = true ->
  match_all false 0 (r +:+ s)
  = omap (fun r => nonempty (rstrip (lstrip r))) (prepend r (chunks s)).
Proof.
  induction s as [|c s IH]; intros r S.
  - rewrite append_nil_r. cbn. rewrite append_nil_r, (match_all_run r S).
    destruct (nonempty _); reflexivity.
  - cbn [chunks]. destruct (JS.is_space c) eqn:Sc.
    + rewrite (match_all_cut r false 0 c s Sc) by lia.
      cbn [prepend]. rewrite append_nil_r. cbn [omap list_omap].
      rewrite (match_all_run r S).
      specialize (IH "" eq_refl). change ("" +:+ s) with s in IH. rewrite IH.
      destruct (chunks_cons s) as (x & xs & ->). cbn [prepend].
      change ("" +:+ x) with x.
      destruct (nonempty (rstrip (lstrip r))); reflexivity.
    + replace (r +:+ String c s) with ((r +:+ String c "") +:+ s)
        by (rewrite append_assoc; reflexivity).
      rewrite IH.
      2: { rewrite no_space_app, S. cbn. rewrite Sc. reflexivity. }
      destruct (chunks_cons s) as (x & xs & ->). cbn [prepend].
      rewrite append_assoc. reflexivity.
Qed.

Theorem tokenize_words t : tokenize t = words t.
Proof.
  unfold tokenize, words.
  pose proof (match_all_words t "" eq_refl) as H. change ("" +:+ t) with t in H.
  rewrite H. destruct (chunks_cons t) as (x & xs & ->). reflexivity.
Qed.

End Tokens.

(** ** Scoring *)

Section Known.

Lemma score_loop_filter toks : forall a,
  fold_left score_step toks a = fold_left score_step (List.filter is_property toks) a.
Proof.
  induction toks as [|tok toks IH]; intros a; [reflexivity|].
  cbn [fold_left List.filter]. unfold is_property at 1.
  destruct (LEXICON_get tok) eqn:E.
  - cbn [fold_left]. apply IH.
  - cbn [fold_left]. apply IH.
  - rewrite <- IH. f_equal. unfold score_step. rewrite E. reflexivity.
Qed.

Lemma scoreText_nonempty s :
  s <> "" ->
  scoreText (JS.Str s) = RetObj (finish (score_loop (tokenize (JS.toLowerCase s)))).
Proof.
  intros H. unfold scoreText, JS.falsy. rewrite bool_decide_eq_false_2 by exact H.
  reflexivity.
Qed.

(** X2: tokens for which [LEXICON[tok]] is falsy do not count. On a
    non-empty text [scoreText] returns what its loop computes on the tokens
    that are properties alone; with no such token that is score 0, emotion
    neutral, count 0; and two non-empty texts with the same such tokens get
    the same result. *)
Theorem unknown_words_ignored :
  (forall s, s <> "" ->
     scoreText (JS.Str s)
     = RetObj (finish (score_loop
         (List.filter is_property (tokenize (JS.toLowerCase s)))))) /\
  (forall s, s <> "" ->
     List.filter is_property (tokenize (JS.toLowerCase s)) = [] ->
     scoreText (JS.Str s)
     = RetObj (mkScore (Some 0%float) (Some "neutral") (Some 0%float))) /\
  (forall s1 s2, s1 <> "" -> s2 <> "" ->
     List.filter is_property (tokenize (JS.toLowerCase s1))
     = List.filter is_property (tokenize (JS.toLowerCase s2)) ->
     scoreText (JS.Str s1) = scoreText (JS.Str s2)).
Proof.
  assert (A : forall s, s <> "" ->
     scoreText (JS.Str s)
     = RetObj (finish (score_loop
         (List.filter is_property (tokenize (JS.toLowerCase s)))))).
  { intros s H. rewrite (scoreText_nonempty s H). unfold score_loop.
    rewrite score_loop_filter. reflexivity. }
  split; [exact A|]. split.
  - intros s H E. rewrite (A s H), E. reflexivity.
  - intros s1 s2 H1 H2 E. rewrite (A s1 H1), (A s2 H2), E. reflexivity.
Qed.

Lemma lower_char_idem c : JS.lower_char (JS.lower_char c) = JS.lower_char c.
Proof.
  assert (H : forallb (fun c =>
            bool_decide (JS.lower_char (JS.lower_char c) = JS.lower_char c))
            all_units = true) by (vm_compute; reflexivity).
  rewrite forallb_forall in H. specialize (H c (in_all_units c)).
  apply bool_decide_eq_true in H. exact H.
Qed.

Lemma toLowerCase_idem s : JS.toLowerCase (JS.toLowerCase s) = JS.toLowerCase s.
Proof.
  induction s as [|c s IH]; [reflexivity|].
  cbn [JS.toLowerCase]. rewrite lower_char_idem, IH. reflexivity.
Qed.

Lemma toLowerCase_empty s : JS.toLowerCase s = "" <-> s = "".
Proof. destruct s; cbn; split; congruence. Qed.

Lemma falsy_lower s1 s2 :
  JS.toLowerCase s1 = JS.toLowerCase s2 ->
  JS.falsy (JS.Str s1) = JS.falsy (JS.Str s2).
Proof.
  intros E. destruct s1, s2; try discriminate E; reflexivity.
Qed.

(** X4: the two detectors, [scoreText] and the fallback reply of the
    server see a text only through its lower-cased form: two texts with the
    same lower-cased form get the same results, lower-casing twice is
    lower-casing once, and so a text and its lower-cased form are flagged
    and scored alike. *)
Theorem letter_case_ignored :
  (forall s1 s2, JS.toLowerCase s1 = JS.toLowerCase s2 ->
     detectCrisis (JS.Str s1) = detectCrisis (JS.Str s2) /\
     scoreText (JS.Str s1) = scoreText (JS.Str s2) /\
     Server.detectCrisisServer (JS.Str s1) = Server.detectCrisisServer (JS.Str s2) /\
     forall random,
       Server.generateDeterministicReply s1 random
       = Server.generateDeterministicReply s2 random) /\
  (forall s, JS.toLowerCase (JS.toLowerCase s) = JS.toLowerCase s) /\
  (forall s,
     detectCrisis (JS.Str (JS.toLowerCase s)) = detectCrisis (JS.Str s) /\
     scoreText (JS.Str (JS.toLowerCase s)) = scoreText (JS.Str s)).
Proof.
  assert (A : forall s1 s2, JS.toLowerCase s1 = JS.toLowerCase s2 ->
     detectCrisis (JS.Str s1) = detectCrisis (JS.Str s2) /\
     scoreText (JS.Str s1) = scoreText (JS.Str s2) /\
     Server.detectCrisisServer (JS.Str s1) = Server.detectCrisisServer (JS.Str s2) /\
     forall random,
       Server.generateDeterministicReply s1 random
       = Server.generateDeterministicReply s2 random).
  { intros s1 s2 E. pose proof (falsy_lower s1 s2 E) as F.
    unfold detectCrisis, scoreText, Server.detectCrisisServer,
      Server.generateDeterministicReply.
    rewrite F, E. auto. }
  split; [exact A|]. split; [exact toLowerCase_idem|].
  intros s. destruct (A (JS.toLowerCase s) s (toLowerCase_idem s)) as (D & S & _).
  auto.
Qed.

Lemma hits_in_lexicon toks e :
  e ∈ hits toks -> lex_emotion e ∈ EMOTIONS.
Proof.
  unfold hits. intros H. apply list_elem_of_omap in H as (tok & _ & L).
  apply elem_of_list_to_map_2 in L. unfold EMOTIONS.
  apply elem_of_cons; right.
  apply (list_elem_of_fmap_2 (fun kv => lex_emotion (snd kv)) _ (tok, e)) in L.
  exact L.
Qed.

(** X3: on a non-empty text [scoreText] returns an object with its three
    properties present; the score is NaN or lies in [-1, 1], and the
    emotion is neutral or the emotion of an entry of the lexicon. *)
Theorem scoreText_result s :
  s <> "" ->
  exists x e c,
    scoreText (JS.Str s) = RetObj (mkScore (Some x) (Some e) (Some c)) /\
    (is_nan x = true \/ (-1 <=? x)%float = true /\ (x <=? 1)%float = true) /\
    e ∈ EMOTIONS.
Proof.
  intros H. rewrite (scoreText_nonempty s H).
  set (toks := tokenize (JS.toLowerCase s)). unfold finish.
  eexists _, _, _. split; [reflexivity|]. split.
  - match goal with |- is_nan ?x = true \/ _ => destruct (is_nan x) eqn:N end;
      [left; reflexivity|right]. apply clamp_in_range. exact N.
  - destruct (score_loop_inv toks) as [(E & _)|(i & e & (L & _) & _ & E)]; rewrite E.
    + cbn. unfold EMOTIONS. apply elem_of_cons; left; reflexivity.
    + assert (He : e ∈ hits toks) by (eapply list_elem_of_lookup_2; exact L).
      pose proof (hits_ok _ _ He) as Ok. unfold entry_ok in Ok.
      apply andb_true_iff in Ok as [Ok _]. apply andb_true_iff in Ok as [_ Ok].
      apply negb_true_iff in Ok. unfold or_neutral. rewrite Ok.
      eapply hits_in_lexicon, He.
Qed.

Lemma scoreText_result_witness :
  "sad" <> "" /\
  exists x e c,
    scoreText (JS.Str "sad") = RetObj (mkScore (Some x) (Some e) (Some c)) /\
    (is_nan x = true \/ (-1 <=? x)%float = true /\ (x <=? 1)%float = true) /\
    e ∈ EMOTIONS.
Proof. split; [discriminate|apply (scoreText_result "sad"); discriminate]. Defined.

End Known.

(** ** The route of the server, and client and server together *)

(** X14: the handler of the route answers with the server error exactly
    when [req.body] is [undefined], with the bad request exactly when
    [req.body] is an object whose [message] is not a non-empty string, and
    on a non-empty string with a JSON body whose two safety flags both
    equal [detectCrisisServer] of the message. *)
Theorem chat_status_and_flags body llm random :
  (Server.chat body llm random = Server.ServerError <-> body = None) /\
  (Server.chat body llm random = Server.BadRequest <->
     exists m, body = Some m /\ forall t, m = JS.Str t -> t = "") /\
  (forall t, body = Some (JS.Str t) -> t <> "" ->
     exists rep,
       Server.chat body llm random
       = Server.Json rep (mkSafety (Server.detectCrisisServer (JS.Str t))
                                    (Server.detectCrisisServer (JS.Str t)))).
Proof.
  assert (J : forall t, t <> "" -> exists rep,
            Server.chat (Some (JS.Str t)) llm random
            = Server.Json rep (mkSafety (Server.detectCrisisServer (JS.Str t))
                                         (Server.detectCrisisServer (JS.Str t)))).
  { intros t H. unfold Server.chat, JS.falsy.
    rewrite bool_decide_eq_false_2 by exact H.
    destruct (Server.detectCrisisServer (JS.Str t)); [eexists; reflexivity|].
    destruct llm as [|[c|]|]; try (eexists; reflexivity).
    cbn zeta. destruct (bool_decide _); eexists; reflexivity. }
  split; [|split].
  - destruct body as [[| |t]|]; try (split; [discriminate|discriminate]);
      [|split; reflexivity].
    split; [|discriminate]. destruct (decide (t = "")) as [->|N]; [discriminate|].
    destruct (J t N) as [rep ->]. discriminate.
  - destruct body as [[| |t]|].
    + split; [|reflexivity]. intros _. eexists. split; [reflexivity|discriminate].
    + split; [|reflexivity]. intros _. eexists. split; [reflexivity|discriminate].
    + destruct (decide (t = "")) as [->|N].
      * split; [|reflexivity]. intros _. eexists. split; [reflexivity|].
        intros t [= <-]. reflexivity.
      * destruct (J t N) as [rep ->]. split; [discriminate|].
        intros [m [[= <-] H]]. destruct N. apply H. reflexivity.
    + split; [discriminate|]. intros [m [[=] _]].
  - intros t -> N. apply J, N.
Qed.

Lemma at_floor3_in_range {A} (a0 a1 a2 : A) x :
  (0 <=? x)%float = true -> (x <? 3)%float = true ->
  exists g, g ∈ [a0; a1; a2] /\ JS.at_floor3 a0 a1 a2 x = Some g.
Proof.
  intros H0 H3. unfold JS.at_floor3. rewrite (leb_not_ltb _ _ H0), H3.
  destruct (_ <? 1)%float; [exists a0; split; [set_solver|reflexivity]|].
  destruct (_ <? 2)%float; [exists a1; split; [set_solver|reflexivity]|].
  exists a2; split; [set_solver|reflexivity].
Qed.

Lemma at_floor3_cases {A} (a0 a1 a2 : A) x :
  JS.at_floor3 a0 a1 a2 x = None \/
  exists g, g ∈ [a0; a1; a2] /\ JS.at_floor3 a0 a1 a2 x = Some g.
Proof.
  unfold JS.at_floor3.
  destruct (_ <? 0)%float; [left; reflexivity|].
  destruct (_ <? 1)%float; [right; exists a0; split; [set_solver|reflexivity]|].
  destruct (_ <? 2)%float; [right; exists a1; split; [set_solver|reflexivity]|].
  destruct (_ <? 3)%float; [right; exists a2; split; [set_solver|reflexivity]|].
  left; reflexivity.
Qed.

(** X16: the fallback reply of the server is the reply for anxiety when
    the lower-cased text contains both help and anx; otherwise the reply
    for sadness when it contains sad or depress; otherwise the generic
    reply at the index floor(random * 3): the reply at [i] when
    [i <= random * 3 < i + 1] for an index [i] of the three, and
    [undefined] when [random * 3] is below 0, at least 3 or not a number. *)
Theorem generateDeterministicReply_spec text random :
  let l := JS.toLowerCase text in
  let r := Server.generateDeterministicReply text random in
  (occurs_in "help" l /\ occurs_in "anx" l -> r = Some ANXIOUS_REPLY) /\
  (~ (occurs_in "help" l /\ occurs_in "anx" l) ->
   occurs_in "sad" l \/ occurs_in "depress" l -> r = Some SAD_REPLY) /\
  (~ (occurs_in "help" l /\ occurs_in "anx" l) ->
   ~ (occurs_in "sad" l \/ occurs_in "depress" l) ->
   (forall i, i < length SERVER_GENERICS -> floor_is (random * 3) i ->
      r = SERVER_GENERICS !! i) /\
   (index_in_range random ->
      exists i, i < length SERVER_GENERICS /\ floor_is (random * 3) i /\
                r = SERVER_GENERICS !! i) /\
   (index_in_range random -> exists g, g ∈ SERVER_GENERICS /\ r = Some g) /\
   (~ index_in_range random -> r = None)).
Proof.
  cbn zeta. unfold Server.generateDeterministicReply. cbn zeta.
  rewrite <- !includes_spec.
  set (h := JS.includes (JS.toLowerCase text) "help").
  set (a := JS.includes (JS.toLowerCase text) "anx").
  set (sd := JS.includes (JS.toLowerCase text) "sad").
  set (d := JS.includes (JS.toLowerCase text) "depress").
  split; [|split].
  - intros [-> ->]. reflexivity.
  - intros N S. destruct (h && a) eqn:E.
    { destruct N. apply andb_true_iff. exact E. }
    destruct (sd || d) eqn:F; [reflexivity|].
    apply orb_false_iff in F. destruct F as [F1 F2], S as [S|S]; congruence.
  - intros N S. destruct (h && a) eqn:E.
    { destruct N. apply andb_true_iff. exact E. }
    destruct (sd || d) eqn:F.
    { destruct S. apply orb_true_iff. exact F. }
    assert (Fl : forall i, i < length SERVER_GENERICS -> floor_is (random * 3) i ->
       JS.at_floor3
         "Thanks for sharing that — I'm listening. Can you tell me more?"
         "That sounds important. How long have you felt this way?"
         "I appreciate you telling me this. What would help you right now?"
         (random * 3)%float = SERVER_GENERICS !! i).
    { intros i Hi Hf. apply (at_floor3_floor _ _ _ _ i Hi Hf). }
    split; [exact Fl|]. split; [|split].
    + intros [H0 H3]. destruct (floor_in_range _ H0 H3) as (i & Hi & Hf).
      exists i. split; [exact Hi|]. split; [exact Hf|]. apply Fl; assumption.
    + intros [H0 H3]. apply at_floor3_in_range; assumption.
    + intros Out. apply at_floor3_out. exact Out.
Qed.

Lemma some_pattern_occurs pats t :
  Forall (fun p => plain p = true) pats ->
  some_pattern pats (JS.toLowerCase t) = true <->
  exists p, p ∈ pats /\ occurs_in p (JS.toLowerCase t).
Proof.
  intros P. rewrite some_pattern_spec.
  split; intros (p & Hin & H); exists p; (split; [exact Hin|]).
  - apply includes_spec. rewrite <- regex_test_lower; [exact H|].
    exact (proj1 (Forall_forall _ _) P p Hin).
  - rewrite regex_test_lower; [apply includes_spec; exact H|].
    exact (proj1 (Forall_forall _ _) P p Hin).
Qed.

Lemma detectCrisis_unfold text :
  detectCrisis (JS.Str text) = some_pattern CRISIS_PATTERNS (JS.toLowerCase text).
Proof.
  destruct text as [|c text]; [reflexivity|]. reflexivity.
Qed.

Lemma detectCrisisServer_unfold text :
  Server.detectCrisisServer (JS.Str text)
  = some_pattern Server.CRISIS_PATTERNS (JS.toLowerCase text).
Proof.
  destruct text as [|c text]; [reflexivity|]. reflexivity.
Qed.

(** X17: the detector of the client flags a text that the detector of the
    server does not flag exactly when the lower-cased text contains one of
    the two patterns that only the client has and none of the six patterns
    of the server. *)
Theorem detectors_differ text :
  detectCrisis (JS.Str text) = true /\
  Server.detectCrisisServer (JS.Str text) = false <->
  (occurs_in "no reason to live" (JS.toLowerCase text) \/
   occurs_in "die by myself" (JS.toLowerCase text)) /\
  forall p, p ∈ Server.CRISIS_PATTERNS -> ~ occurs_in p (JS.toLowerCase text).
Proof.
  rewrite detectCrisis_unfold, detectCrisisServer_unfold.
  assert (PS : Forall (fun p => plain p = true) Server.CRISIS_PATTERNS)
    by (repeat constructor).
  assert (PC : Forall (fun p => plain p = true) CRISIS_PATTERNS)
    by (repeat constructor).
  rewrite <- not_true_iff_false, !some_pattern_occurs by assumption.
  change CRISIS_PATTERNS
    with (Server.CRISIS_PATTERNS ++ ["no reason to live"; "die by myself"]).
  split.
  - intros [(p & Hin & H) N]. split.
    + apply elem_of_app in Hin as [Hin|Hin].
      * destruct N. exists p. auto.
      * apply elem_of_cons in Hin as [->|Hin]; [left; exact H|].
        apply elem_of_cons in Hin as [->|Hin]; [right; exact H|].
        apply elem_of_nil in Hin. contradiction.
    + intros q Hq Ho. apply N. exists q. auto.
  - intros [[H|H] N]; (split; [|intros (q & Hq & Ho); exact (N q Hq Ho)]).
    + eexists. split; [|exact H]. set_solver.
    + eexists. split; [|exact H]. set_solver.
Qed.

Lemma chat_plain text llm random :
  text <> "" -> Server.detectCrisisServer (JS.Str text) = false ->
  Server.chat (Some (JS.Str text)) llm random
  = Server.Json (plain_reply text llm random) (mkSafety false false).
Proof.
  intros H C. unfold Server.chat, JS.falsy.
  rewrite bool_decide_eq_false_2 by exact H. rewrite C.
  destruct llm as [|[c|]|]; try reflexivity. cbn.
  destruct (bool_decide (JS.trim c = "")); reflexivity.
Qed.

Lemma plain_reply_cases text llm random t :
  plain_reply text llm random = Some t ->
  (exists content, llm = Server.Completion (Some content) /\ t = JS.trim content /\ t <> "") \/
  t ∈ ANXIOUS_REPLY :: SAD_REPLY :: SERVER_GENERICS.
Proof.
  assert (D : Server.generateDeterministicReply text random = Some t ->
              t ∈ ANXIOUS_REPLY :: SAD_REPLY :: SERVER_GENERICS).
  { unfold Server.generateDeterministicReply. cbn zeta.
    destruct (_ && _); [intros [= <-]; set_solver|].
    destruct (_ || _); [intros [= <-]; set_solver|].
    intros E. destruct (at_floor3_cases
      "Thanks for sharing that — I'm listening. Can you tell me more?"
      "That sounds important. How long have you felt this way?"
      "I appreciate you telling me this. What would help you right now?"
      (random * 3)%float) as [N|(g & Hg & S)].
    - rewrite N in E. discriminate.
    - rewrite S in E. injection E as <-. unfold SERVER_GENERICS.
      apply elem_of_cons; right. apply elem_of_cons; right. exact Hg. }
  unfold plain_reply. destruct llm as [|[c|]|]; auto.
  destruct (bool_decide (JS.trim c = "")) eqn:B; [auto|].
  intros [= <-]. left. exists c. apply bool_decide_eq_false in B. auto.
Qed.

Section EndToEnd.

Variable clock : nat -> Z.

(** X18: client and server together. In server mode, a turn on an input
    that is not blank and not flagged by the client, answered by the route
    of the server on the trimmed input, is a remote turn without
    escalation: the overlay is as before, the transcript gains the user's
    entry and one entry of the bot, and the text of that entry is the
    trimmed content of the completion, one of the five fixed replies of the
    server, or the apology, the last only when the random index of the
    server is out of range. *)
Theorem server_mode_turn s llm random random' :
  let text := JS.trim (inputEl_value s) in
  text <> "" -> detectCrisis (JS.Str text) = false -> useServer_checked s = true ->
  let outcome := Server.to_client (Server.chat (Some (JS.Str text)) llm random') in
  let t := reply_or_apology (plain_reply text llm random') in
  let s' := exec (submit clock outcome random) s in
  eval (submit clock outcome random) s = RemoteReply false /\
  crisisOverlay_hidden s' = crisisOverlay_hidden s /\
  transcript s' = transcript s ++ [user_entry clock s text; bot_entry clock s t] /\
  emotionTimeline s' = timeline_after clock s text t /\
  ((exists content, llm = Server.Completion (Some content) /\
      t = JS.trim content /\ t <> "") \/
   t ∈ ANXIOUS_REPLY :: SAD_REPLY :: SERVER_GENERICS \/
   t = APOLOGY /\ ~ index_in_range random').
Proof.
  intros text H C U outcome t s'.
  assert (CS : Server.detectCrisisServer (JS.Str text) = false).
  { destruct (Server.detectCrisisServer (JS.Str text)) eqn:E; [|reflexivity].
    apply server_crisis_implies_client in E. congruence. }
  assert (O : outcome = FetchResponse true
                (Some (BodyData (mkData (plain_reply text llm random')
                                        (Some (mkSafety false false)))))).
  { unfold outcome. rewrite chat_plain by assumption. reflexivity. }
  subst s'. rewrite O.
  destruct (submit_remote clock
              (mkData (plain_reply text llm random') (Some (mkSafety false false)))
              random s H C U) as (P & V & _ & T & L).
  cbn [reply safety crisis] in P, V, T, L.
  split; [exact P|]. split; [exact V|]. split; [exact T|]. split; [exact L|].
  subst t. destruct (plain_reply text llm random') as [r|] eqn:E.
  - destruct (plain_reply_cases _ _ _ _ E) as [(c & -> & -> & N)|M].
    + left. exists c. cbn. rewrite bool_decide_eq_false_2 by exact N. auto.
    + right. left. cbn.
      assert (N : r <> "").
      { intros ->. unfold ANXIOUS_REPLY, SAD_REPLY, SERVER_GENERICS in M.
        repeat (apply elem_of_cons in M as [M|M]; [discriminate M|]).
        apply elem_of_nil in M. contradiction. }
      rewrite bool_decide_eq_false_2 by exact N. exact M.
  - right. right. split; [reflexivity|]. intros [H0 H3].
    unfold plain_reply in E.
    assert (G : Server.generateDeterministicReply text random' = None).
    { destruct llm as [|[c|]|]; try exact E.
      destruct (bool_decide (JS.trim c = "")); [exact E|discriminate]. }
    unfold Server.generateDeterministicReply in G. cbn zeta in G.
    destruct (_ && _); [discriminate|]. destruct (_ || _); [discriminate|].
    destruct (at_floor3_in_range
      "Thanks for sharing that — I'm listening. Can you tell me more?"
      "That sounds important. How long have you felt this way?"
      "I appreciate you telling me this. What would help you right now?"
      (random' * 3)%float H0 H3) as (g & _ & S).
    rewrite S in G. discriminate.
Qed.

End EndToEnd.

(** ** The page *)

Ltac unfold_all :=
  unfold act, exec, eval, submit, local_turn, say, localReply,
    overlayClose_click, runBreathingExercise, breathing_tick, runGroundingExercise,
    grounding_callback, escalateToCrisis,
    pushToTranscript, pushToTimeline, addMessageToUI, Date_now, meta_of,
    pick_generic, JS.at_floor3, modify, gets, mbind, M_bind, mret, M_ret.

Ltac split_ifs :=
  repeat match goal with
  | |- context [if ?b then _ else _] => destruct b eqn:?; cbn
  | |- context [match ?o with Some _ => _ | None => _ end] => destruct o eqn:?; cbn
  | |- context [match ?o with FetchRejected => _ | FetchResponse _ _ => _ end] =>
      destruct o as [|[] [[|?|]|]]; cbn
  end.

Lemma scored_complete t :
  JS.falsy (JS.Str t) = false ->
  is_Some (score (fields (scoreText (JS.Str t)))) /\
  is_Some (emotion (fields (scoreText (JS.Str t)))).
Proof.
  intros F. unfold scoreText. rewrite F. cbn. split; eexists; reflexivity.
Qed.

Lemma falsy_reply_or_apology r : JS.falsy (JS.Str (reply_or_apology r)) = false.
Proof.
  unfold JS.falsy. apply bool_decide_eq_false_2, reply_or_apology_nonempty.
Qed.

Lemma shift_over_80_bound tl : length tl <= 81 -> length (shift_over_80 tl) <= 80.
Proof.
  unfold shift_over_80. destruct (decide _); [|lia]. destruct tl; cbn in *; lia.
Qed.

Lemma push_bound tl e :
  length tl <= 80 -> length (shift_over_80 (tl ++ [e])) <= 80.
Proof. intros H. apply shift_over_80_bound. rewrite length_app. cbn. lia. Qed.

Lemma push_nonempty tl (e : TimelineEvent) :
  0 < length (shift_over_80 (tl ++ [e])).
Proof.
  unfold shift_over_80. destruct (decide _) as [G|G]; rewrite length_app in *; cbn in *.
  - destruct tl; cbn in *; [lia|]. rewrite length_app. cbn. lia.
  - lia.
Qed.

(** *** Blank input *)

Lemma trim_end_aux_None s :
  JS.trim_end_aux s = None <-> forallb JS.is_space (list_ascii_of_string s) = true.
Proof.
  induction s as [|c s IH]; cbn; [tauto|].
  destruct (JS.trim_end_aux s) as [r|].
  - split; [discriminate|]. intros H. apply andb_prop in H as [_ H].
    apply IH in H. discriminate.
  - destruct (JS.is_space c); cbn; [|split; discriminate].
    split; intros _; [apply IH|]; reflexivity.
Qed.

Lemma trim_end_aux_Some s r : JS.trim_end_aux s = Some r -> r <> "".
Proof.
  destruct s as [|c s]; cbn; [discriminate|].
  destruct (JS.trim_end_aux s); [intros [= <-]; discriminate|].
  destruct (JS.is_space c); [discriminate|intros [= <-]; discriminate].
Qed.

Lemma trim_start_spaces s :
  forallb JS.is_space (list_ascii_of_string (JS.trim_start s))
  = forallb JS.is_space (list_ascii_of_string s).
Proof.
  induction s as [|c s IH]; [reflexivity|]. cbn.
  destruct (JS.is_space c) eqn:E; cbn; [exact IH|]. rewrite E. reflexivity.
Qed.

Lemma trim_blank s :
  JS.trim s = "" <-> forallb JS.is_space (list_ascii_of_string s) = true.
Proof.
  unfold JS.trim. rewrite <- trim_start_spaces, <- trim_end_aux_None.
  destruct (JS.trim_end_aux (JS.trim_start s)) as [r|] eqn:E; cbn.
  - split; [|discriminate]. intros ->. apply trim_end_aux_Some in E. contradiction.
  - tauto.
Qed.

Lemma falsy_trim inp :
  JS.falsy (JS.Str (JS.trim inp)) = forallb JS.is_space (list_ascii_of_string inp).
Proof.
  unfold JS.falsy. apply eq_true_iff_eq. rewrite bool_decide_eq_true. apply trim_blank.
Qed.

Section Effects.

Variable clock : nat -> Z.

Local Opaque scoreText detectCrisis JS.trim shift_over_80.

(** X5: the submit handler returns at once and leaves the page as it was
    exactly when the input consists of white space only; on any other input
    the turn is not ignored and the transcript grows. *)
Theorem blank_input_ignored outcome random s :
  let blank_input := forallb JS.is_space (list_ascii_of_string (inputEl_value s)) in
  (blank_input = true -> submit clock outcome random s = (Ignored, s)) /\
  (blank_input = false ->
     eval (submit clock outcome random) s <> Ignored /\
     length (transcript s) < length (transcript (exec (submit clock outcome random) s))).
Proof.
  cbn zeta. rewrite <- falsy_trim. split; intros B.
  - unfold submit, gets, mbind, M_bind. rewrite B. reflexivity.
  - destruct s as [tr tl lab dat msgs ov ty inp us rd]. cbn in B.
    unfold_all. cbn. rewrite B. cbn. split_ifs;
      (split; [discriminate | rewrite ?length_app; cbn; lia]).
Qed.

(** X6: a turn on an input that is not blank appends the user's entry and
    then at most one entry of the bot to the transcript, renders the user's
    message and then at most two messages of the bot, empties the input,
    leaves the typing indicator hidden and the checkbox as it was, and
    reads the clock. *)
Theorem turn_shape outcome random s :
  let text := JS.trim (inputEl_value s) in
  text <> "" ->
  let s' := exec (submit clock outcome random) s in
  (exists bots,
     transcript s' = transcript s ++ user_entry clock s text :: bots /\
     length bots <= 1 /\ forallb is_bot_entry bots = true) /\
  (exists more,
     messagesEl s' = messagesEl s ++
       mkUi text user (ui_meta_of (clock (clock_reads s)) (scored text)) :: more /\
     length more <= 2 /\
     forallb (fun m => match ui_sender m with bot => true | user => false end) more = true) /\
  inputEl_value s' = "" /\
  typingIndicator_hidden s' = true /\
  useServer_checked s' = useServer_checked s /\
  clock_reads s < clock_reads s'.
Proof.
  intros text H. subst text. cbn zeta.
  destruct s as [tr tl lab dat msgs ov ty inp us rd]. cbn in H.
  unfold_all. cbn. unfold JS.falsy. rewrite bool_decide_eq_false_2 by exact H. cbn.
  unfold user_entry, ui_meta_of, scored. cbn.
  split_ifs; rewrite <- ?app_assoc; cbn;
    (split; [eexists; split; [reflexivity|split; [cbn; lia|reflexivity]]|]);
    (split; [eexists; split; [reflexivity|split; [cbn; lia|reflexivity]]|]);
    repeat split; lia.
Qed.

(** X7: a turn shows the crisis overlay on the two paths that escalate
    and leaves it as it was on the others. The local crisis path is taken
    exactly when the trimmed input is non-empty and [detectCrisis] flags
    it; the remote one exactly when it is non-empty and not flagged, the
    server is on, and the 2xx body is one on which the [try] block does not
    throw before line 280 (it is not [null] and its [reply] is a string or
    falsy) and has [safety.crisis] true. A click on the close button hides
    the overlay again. *)
Theorem overlay_shown_only_on_crisis outcome random s :
  let text := JS.trim (inputEl_value s) in
  let p := eval (submit clock outcome random) s in
  let s' := exec (submit clock outcome random) s in
  crisisOverlay_hidden s' = crisisOverlay_hidden s && negb (escalated_path p) /\
  (p = LocalCrisis <-> text <> "" /\ detectCrisis (JS.Str text) = true) /\
  (p = RemoteReply true <->
     text <> "" /\ detectCrisis (JS.Str text) = false /\ useServer_checked s = true /\
     exists data sf, outcome = FetchResponse true (Some (BodyData data)) /\
       safety data = Some sf /\ crisis sf = true) /\
  crisisOverlay_hidden (exec overlayClose_click s') = true.
Proof.
  cbn zeta. split; [|split; [|split]].
  4: { destruct (exec (submit clock outcome random) s). reflexivity. }
  all: destruct s as [tr tl lab dat msgs ov ty inp us rd];
    unfold_all; cbn; unfold JS.falsy;
    (destruct (bool_decide (JS.trim inp = "")) eqn:B;
      [apply bool_decide_eq_true in B|apply bool_decide_eq_false in B]); cbn;
    [|destruct (detectCrisis (JS.Str (JS.trim inp))) eqn:C; cbn;
      [|destruct us; cbn;
        [destruct outcome as [|[] [[|data|]|]]; cbn;
          [| | destruct (safety data) as [sf|] eqn:Sf; [destruct (crisis sf) eqn:Cr|]; cbn
           | | | | | | ]|]]].
  all: split_ifs; rewrite ?andb_true_r, ?andb_false_r; try reflexivity.
  all: try (split; [discriminate|]).
  all: try (split; [intros _|reflexivity]).
  all: try (intros (X1 & X2); congruence).
  all: try (intros (X1 & X2 & X3 & d & sf' & X4 & X5 & X6); congruence).
  all: try (split; assumption).
  all: repeat (split; [assumption || reflexivity|]); eauto.
Qed.

(** X8: what a turn depends on. On a flagged input neither the answer of
    the server nor [Math.random] matters; with the server off the answer of
    the server does not matter; with a 2xx body on which the [try] block
    does not throw (it is not [null] and its [reply] is a string or falsy),
    on an input that is not flagged, [Math.random] does not matter; and all
    outcomes on which the [try] block throws (a rejected call, a status
    that is not 2xx, an unreadable body, a [null] body, a [reply] that is
    truthy and not a string) give the same turn. *)
Theorem turn_dependencies s :
  let text := JS.trim (inputEl_value s) in
  (detectCrisis (JS.Str text) = true ->
     forall o1 o2 r1 r2, submit clock o1 r1 s = submit clock o2 r2 s) /\
  (useServer_checked s = false ->
     forall o1 o2 r, submit clock o1 r s = submit clock o2 r s) /\
  (useServer_checked s = true -> detectCrisis (JS.Str text) = false ->
     forall data r1 r2,
       submit clock (FetchResponse true (Some (BodyData data))) r1 s
       = submit clock (FetchResponse true (Some (BodyData data))) r2 s) /\
  (forall o1 o2 r, try_throws o1 = true -> try_throws o2 = true ->
     submit clock o1 r s = submit clock o2 r s).
Proof.
  cbn zeta. destruct s as [tr tl lab dat msgs ov ty inp us rd]. cbn.
  split; [|split; [|split]].
  - intros C o1 o2 r1 r2. unfold submit, gets, mbind, M_bind. cbn.
    rewrite C. reflexivity.
  - intros -> o1 o2 r. unfold_all. cbn. unfold JS.falsy.
    destruct (bool_decide (JS.trim inp = "")); [reflexivity|].
    destruct (detectCrisis (JS.Str (JS.trim inp))); reflexivity.
  - intros -> C data r1 r2. unfold_all. cbn. unfold JS.falsy. rewrite C.
    destruct (bool_decide (JS.trim inp = "")); reflexivity.
  - intros o1 o2 r T1 T2.
    destruct o1 as [|[] [[|d1|]|]]; try discriminate T1;
      destruct o2 as [|[] [[|d2|]|]]; try discriminate T2; reflexivity.
Qed.

End Effects.

Transparent scoreText detectCrisis JS.trim shift_over_80 reply_or_apology.

Section Page.

Variable clock : nat -> Z.

Local Opaque scoreText detectCrisis JS.trim shift_over_80.

Lemma act_session_ok a s : session_ok s -> session_ok (act clock a s).
Proof.
  intros [B [L D]]. destruct s as [tr tl lab dat msgs ov ty inp us rd].
  cbn in B, L, D. subst lab dat.
  destruct a as [inp' outcome random| | |i| |k]; unfold session_ok, chart_synced.
  - unfold_all. cbn. split_ifs; cbn; (split; [|split; reflexivity]);
      auto using push_bound.
  - cbn. auto.
  - cbn. auto.
  - unfold_all. cbn. split_ifs; cbn; auto.
  - cbn. auto.
  - cbn. destruct (grounding_timeouts !! k) as [[d text]|]; cbn; auto.
Qed.

(** X9: after any sequence of events from the initial page the timeline
    holds between 1 and 80 events, and the labels and the data of the chart
    are those of the timeline, one point for each event. *)
Theorem page_invariant (actions : list Action) :
  let s := run clock actions (init clock) in
  length (emotionTimeline s) <= 80 /\
  chart_labels s = ev_t <$> emotionTimeline s /\
  chart_data s = (fun e => score (ev_obj e)) <$> emotionTimeline s /\
  length (chart_data s) = length (emotionTimeline s) /\
  0 < length (emotionTimeline s).
Proof.
  cbn zeta.
  assert (I : forall l s, session_ok s /\ 0 < length (emotionTimeline s) ->
     session_ok (run clock l s) /\ 0 < length (emotionTimeline (run clock l s))).
  { induction l as [|a l IH]; intros s [Ok P]; [auto|].
    cbn [run foldl]. apply IH. split; [apply act_session_ok, Ok|].
    clear IH. destruct s as [tr tl lab dat msgs ov ty inp us rd]. cbn in P.
    pose proof (push_nonempty tl) as Q.
    pose proof (fun e => push_nonempty (shift_over_80 (tl ++ [e]))) as Q2.
    destruct a as [inp' outcome random| | |i| |k].
    - unfold_all. cbn. split_ifs; cbn; auto.
    - cbn. auto.
    - cbn. auto.
    - unfold_all. cbn. split_ifs; cbn; auto.
    - cbn. auto.
    - cbn. destruct (grounding_timeouts !! k) as [[d text]|]; cbn; auto. }
  destruct (I actions (init clock)) as [[B [L D]] P].
  { split; [split; [vm_compute; lia|split; vm_compute; reflexivity]|vm_compute; lia]. }
  repeat split; try assumption. rewrite D, length_fmap. reflexivity.
Qed.

Lemma act_transcript a s :
  exists added, transcript (act clock a s) = transcript s ++ added /\ length added <= 2.
Proof.
  destruct s as [tr tl lab dat msgs ov ty inp us rd].
  destruct a as [inp' outcome random| | |i| |k].
  - unfold_all. cbn. split_ifs; cbn; rewrite <- ?app_assoc;
      first [ eexists; split; [reflexivity|cbn; lia]
            | exists []; rewrite app_nil_r; split; [reflexivity|cbn; lia] ].
  - exists []. cbn. rewrite app_nil_r. split; [reflexivity|cbn; lia].
  - eexists. cbn. split; [reflexivity|cbn; lia].
  - unfold_all. cbn. split_ifs; cbn;
      first [ eexists; split; [reflexivity|cbn; lia]
            | exists []; rewrite app_nil_r; split; [reflexivity|cbn; lia] ].
  - exists []. cbn. rewrite app_nil_r. split; [reflexivity|cbn; lia].
  - cbn. destruct (grounding_timeouts !! k) as [[d text]|]; cbn;
      (exists []; rewrite app_nil_r; split; [reflexivity|cbn; lia]).
Qed.

(** X10: no event removes or changes an entry of the transcript: after any
    sequence of events the transcript before is a prefix of the transcript
    after, and each event adds at most two entries. *)
Theorem transcript_append_only (actions : list Action) s :
  transcript s `prefix_of` transcript (run clock actions s) /\
  length (transcript (run clock actions s))
    <= length (transcript s) + 2 * length actions.
Proof.
  revert s. induction actions as [|a l IH]; intros s; cbn [run foldl].
  - split; [reflexivity|cbn; lia].
  - destruct (IH (act clock a s)) as [P L]. fold (run clock l (act clock a s)) in *.
    destruct (act_transcript a s) as (added & E & La).
    split.
    + etransitivity; [|exact P]. rewrite E. apply prefix_app_r. reflexivity.
    + rewrite E, length_app in L. cbn [length]. lia.
Qed.

End Page.

Transparent scoreText detectCrisis JS.trim shift_over_80 reply_or_apology.

Section Entries.

Variable clock : nat -> Z.

Local Opaque scoreText detectCrisis JS.trim shift_over_80 reply_or_apology.

Ltac side := first [assumption | apply falsy_reply_or_apology | reflexivity].

Ltac complete :=
  try assumption;
  repeat match goal with
  | |- Forall _ (_ ++ _) => apply Forall_app; split; try assumption
  | |- Forall _ (_ :: _) => apply Forall_cons; split
  | |- Forall _ [] => apply Forall_nil
  | |- True => exact I
  | |- entry_complete _ => unfold entry_complete; cbn; split
  | |- is_Some (Some _) => eexists; reflexivity
  | |- is_Some (score (fields (scoreText (JS.Str ?t)))) =>
      apply (scored_complete t); side
  | |- is_Some (emotion (fields (scoreText (JS.Str ?t)))) =>
      apply (scored_complete t); side
  | H : score (fields (scoreText (JS.Str ?t))) = None |- _ =>
      exfalso; destruct (proj1 (scored_complete t ltac:(side))) as [? E]; congruence
  end.

Lemma act_complete a s :
  Forall entry_complete (transcript s) ->
  Forall entry_complete (transcript (act clock a s)).
Proof.
  intros C. destruct s as [tr tl lab dat msgs ov ty inp us rd]. cbn in C.
  destruct a as [inp' outcome random| | |i| |k].
  - unfold_all. cbn. split_ifs; cbn; rewrite <- ?app_assoc; complete.
  - cbn. exact C.
  - unfold_all. cbn. complete.
  - unfold_all. cbn. split_ifs; cbn; complete.
  - cbn. exact C.
  - cbn. destruct (grounding_timeouts !! k) as [[d text]|]; cbn; exact C.
Qed.

(** X11: after any sequence of events from the initial page every entry of
    the transcript has a score and an emotion: neither is [undefined]. *)
Theorem transcript_entries_complete (actions : list Action) :
  Forall (fun e => is_Some (entry_score e) /\ is_Some (entry_emotion e))
         (transcript (run clock actions (init clock))).
Proof.
  assert (I : forall l s, Forall entry_complete (transcript s) ->
                          Forall entry_complete (transcript (run clock l s))).
  { induction l as [|a l IH]; intros s C; [exact C|].
    cbn [run foldl]. apply IH, act_complete, C. }
  apply (I actions (init clock)).
  repeat constructor; eexists; reflexivity.
Qed.

End Entries.

Transparent scoreText detectCrisis JS.trim shift_over_80 reply_or_apology.

Section Breathing.

Variable clock : nat -> Z.

Lemma cue_at k :
  k < 9 ->
  default "" (cues !! (k mod length cues)) = default "" (nine_cues !! k).
Proof. intros H. do 9 (destruct k as [|k]; [reflexivity|]). lia. Qed.

Lemma breathing_tick_running k s :
  k < 9 ->
  let '(i, s') := breathing_tick clock (mkInterval k false) s in
  i = mkInterval (S k) false /\
  ui_text <$> messagesEl s' = (ui_text <$> messagesEl s) ++ [default "" (nine_cues !! k)] /\
  transcript s' = transcript s /\
  emotionTimeline s' = emotionTimeline s.
Proof.
  intros H. destruct s as [tr tl lab dat msgs ov ty inp us rd].
  unfold breathing_tick. cbn [cleared round].
  destruct (decide (length cues * 3 <= k)) as [N|_]; [cbn in N; lia|].
  rewrite (cue_at k H). unfold_all. cbn. rewrite !fmap_app. repeat split.
Qed.

Lemma breathing_tick_last k s :
  9 <= k ->
  let '(i, s') := breathing_tick clock (mkInterval k false) s in
  i = mkInterval k true /\
  ui_text <$> messagesEl s' = (ui_text <$> messagesEl s) ++ [BREATHING_DONE] /\
  entry_text <$> transcript s' = (entry_text <$> transcript s) ++ ["Breathing complete"] /\
  emotionTimeline s' = emotionTimeline s.
Proof.
  intros H. destruct s as [tr tl lab dat msgs ov ty inp us rd].
  unfold breathing_tick. cbn [cleared round].
  destruct (decide (length cues * 3 <= k)) as [_|N]; [|cbn in N; lia].
  unfold_all. cbn. rewrite !fmap_app. repeat split.
Qed.

Lemma breathing_tick_cleared k s :
  breathing_tick clock (mkInterval k true) s = (mkInterval k true, s).
Proof. reflexivity. Qed.

(** X12: a breathing exercise renders its introduction, then, one for each
    of the first nine periods of its timer, the three cues three times
    over, and with the tenth period the closing message; then the timer is
    cleared and further periods do nothing. The transcript gains the entry
    for the start and, with the tenth period, the one for the end; the
    timeline is not touched. *)
Theorem breathing_script n s :
  let '(i, s') := breathing clock n s in
  i = mkInterval (n `min` 9) (bool_decide (10 <= n)) /\
  ui_text <$> messagesEl s' =
    (ui_text <$> messagesEl s) ++ BREATHING_INTRO :: take n nine_cues ++
    (if decide (10 <= n) then [BREATHING_DONE] else []) /\
  entry_text <$> transcript s' =
    (entry_text <$> transcript s) ++ "Guided breathing start" ::
    (if decide (10 <= n) then ["Breathing complete"] else []) /\
  emotionTimeline s' = emotionTimeline s.
Proof.
  induction n as [|n IH].
  - destruct s as [tr tl lab dat msgs ov ty inp us rd]. unfold breathing. unfold_all. cbn.
    rewrite !fmap_app. repeat split.
  - unfold breathing in *. rewrite Nat.iter_succ.
    destruct (Nat.iter n _ _) as [i s1]. destruct IH as (-> & M & T & L).
    cbn beta iota zeta delta [fst snd].
    destruct (decide (n < 9)) as [A|A]; [|destruct (decide (n = 9)) as [->|B]].
    + replace (n `min` 9) with n by lia.
      rewrite bool_decide_eq_false_2 by lia.
      pose proof (breathing_tick_running n s1 A) as P.
      destruct (breathing_tick clock (mkInterval n false) s1) as [i' s'].
      destruct P as (-> & M' & T' & L').
      rewrite M', T', L', M, T, L.
      destruct (decide (10 <= n)) as [|_]; [lia|].
      destruct (decide (10 <= S n)) as [|_]; [lia|].
      rewrite bool_decide_eq_false_2 by lia. replace (S n `min` 9) with (S n) by lia.
      rewrite !app_nil_r. repeat split.
      rewrite <- app_assoc. cbn [app]. do 2 f_equal.
      assert (n < length nine_cues) as Hn by (cbn; lia).
      destruct (lookup_lt_is_Some_2 nine_cues n Hn) as [c Hc].
      rewrite Hc. cbn [default from_option]. symmetry. apply take_S_r, Hc.
    + rewrite bool_decide_eq_false_2 by lia.
      pose proof (breathing_tick_last 9 s1 (le_n 9)) as P.
      cbn [Nat.min] in *.
      destruct (breathing_tick clock (mkInterval 9 false) s1) as [i' s'].
      destruct P as (-> & M' & T' & L').
      rewrite M', T', L', M, T, L. cbn. rewrite <- !app_assoc. repeat split.
    + replace (n `min` 9) with 9 by lia. replace (S n `min` 9) with 9 by lia.
      rewrite bool_decide_eq_true_2 by lia.
      rewrite breathing_tick_cleared, M, T, L.
      rewrite bool_decide_eq_true_2 by lia.
      destruct (decide (10 <= n)) as [_|]; [|lia].
      destruct (decide (10 <= S n)) as [_|]; [|lia].
      rewrite !take_ge by (cbn; lia). repeat split.
Qed.

(** X13: the events other than a submit (the close button, the two tools
    and their timers) leave the timeline, the data of the chart, the input
    and the typing indicator as they were; only the close button changes
    the overlay; the grounding tool and the close button leave the
    transcript as it was; a delayed grounding message is rendered with the
    label sentiment and the score 0. *)
Theorem tools_leave_session_alone (a : Action) s :
  (forall inp outcome random, a <> Submit inp outcome random) ->
  let s' := act clock a s in
  emotionTimeline s' = emotionTimeline s /\
  chart_data s' = chart_data s /\
  inputEl_value s' = inputEl_value s /\
  typingIndicator_hidden s' = typingIndicator_hidden s /\
  (a <> CloseOverlay -> crisisOverlay_hidden s' = crisisOverlay_hidden s) /\
  (match a with StartGrounding | GroundingCallback _ | CloseOverlay => True | _ => False end ->
   transcript s' = transcript s) /\
  (match a with
   | GroundingCallback k =>
       forall d text, grounding_timeouts !! k = Some (d, text) ->
         messagesEl s' = messagesEl s ++
           [mkUi text bot (Some (mkMeta "sentiment" 0 (clock (clock_reads s))))]
   | _ => True
   end).
Proof.
  intros N. destruct s as [tr tl lab dat msgs ov ty inp us rd].
  destruct a as [inp' outcome random| | |i| |k]; cbn zeta.
  - exfalso. eapply N. reflexivity.
  - unfold_all. cbn. repeat split; try tauto; try congruence.
  - unfold_all. cbn. repeat split; tauto.
  - unfold_all. destruct (cleared i); [cbn; repeat split; tauto|].
    destruct (decide _); cbn; repeat split; tauto.
  - unfold_all. cbn. repeat split; tauto.
  - unfold_all. cbn. destruct (grounding_timeouts !! k) as [[d text]|]; cbn; repeat split; try tauto.
    + intros d' text' [= <- <-]. reflexivity.
    + intros d' text' [=].
Qed.

End Breathing.

(** ** Instances *)

Lemma turn_shape_witness :
  JS.trim (inputEl_value hello) <> "" /\
  inputEl_value (exec (submit clock0 FetchRejected 0.5) hello) = "" /\
  typingIndicator_hidden (exec (submit clock0 FetchRejected 0.5) hello) = true.
Proof.
  destruct hello_submitted as (H & _ & _). split; [exact H|].
  destruct (turn_shape clock0 FetchRejected 0.5 hello H) as (_ & _ & V & T & _).
  split; [exact V | exact T].
Defined.

Lemma tools_leave_session_alone_witness :
  (forall inp outcome random, StartGrounding <> Submit inp outcome random) /\
  transcript (act clock0 StartGrounding hello) = transcript hello.
Proof.
  assert (N : forall inp outcome random, StartGrounding <> Submit inp outcome random)
    by (intros; discriminate).
  split; [exact N|].
  destruct (tools_leave_session_alone clock0 StartGrounding hello N)
    as (_ & _ & _ & _ & _ & T & _).
  exact (T I).
Defined.

Lemma server_mode_turn_witness :
  JS.trim (inputEl_value hello) <> "" /\
  eval (submit clock0
          (Server.to_client
             (Server.chat (Some (JS.Str (JS.trim (inputEl_value hello))))
                Server.NoClient 0.5)) 0.5) hello
  = RemoteReply false.
Proof.
  destruct hello_submitted as (H & C & U). split; [exact H|].
  exact (proj1 (server_mode_turn clock0 hello Server.NoClient 0.5 0.5 H C U)).
Defined.
